(** * masterclass-go: a shallow embedding of the gRPC server, the HTTP
    health server and the two process entry points.

    Sources embedded here:
    - [internal/grpc_server.go]: [GrpcServer], [NewGrpcServer], [Start],
      [GetFrame];
    - [internal/http_server] (README, section "Go Routines"): [HTTPServer],
      [NewHTTPServer], [HTTPServer_Start], [HealthHandler];
    - [cmd/main.go]: the minimal entry point [cmd.main];
    - the wait-group entry point of the README ([startGrpcServer],
      [startHTTPServer], [main]), as a small-step machine in [host].

    Go code runs in a world (heap objects, the default HTTP mux, standard
    output, the log of calls made to the operating system) and either
    returns, blocks for ever, exits the process or panics: the [Go] monad
    below.  Calls that leave the repository ([net.Listen], [grpc.Serve],
    [http.ListenAndServe]) take their result from an environment [Env]. *)

From stdpp Require Import gmap strings list.
From Stdlib Require Import ZArith Ascii.

(** ** Values *)

(** A heap address.  An address that is not allocated plays the role of a
    nil or dangling pointer. *)
Definition loc := nat.

(** Go's [error] interface: [None] is [nil], [Some msg] is an error whose
    [Error()] text is [msg]. *)
Definition error := option string.

(** [err != nil] *)
Definition is_err (err : error) : bool :=
  match err with Some _ => true | None => false end.

(** A bound socket as returned by [net.Listen]. *)
Record Listener := { laddr : string }.

(** [protos/example.proto]: [message GetFrameRequest { int32 id = 1; }] and
    [message Frame { int32 id = 1; }].  The int32 is kept as its value in
    [Z]; [int32_range] is the range of the wire type. *)
Record GetFrameRequest := { req_Id : Z }.
Record Frame := { Id : Z }.

Definition int32_range (x : Z) : Prop := (- 2 ^ 31 <= x < 2 ^ 31)%Z.

(** [context.Context], as far as a handler can observe it. *)
Record Context := {
  ctx_deadline : option Z;
  ctx_done : bool;
  ctx_err : error;
  ctx_values : list (string * string)
}.

(** The state of a [*grpc.Server]: the registered services (by service
    name, each with the address of its implementation) and whether [Serve]
    has been entered. *)
Record grpc_Server := {
  services : gmap string loc;
  serve : bool
}.

(** [type GrpcServer struct { address string; server *grpc.Server; ... }].
    The embedded [pb.UnimplementedFrameServiceServer] has no field. *)
Record GrpcServer := {
  address : string;
  server : loc
}.

(** [type HTTPServer struct { address string }] *)
Record HTTPServer := { http_address : string }.

(** ** net/http: requests, response writers, handlers *)

Record Request := {
  method : string;
  path : string
}.

Record ResponseWriter := {
  wroteHeader : bool;
  status : Z;
  body : string
}.

Record Response := {
  StatusCode : Z;
  Body : string
}.

(** [type HandlerFunc func(ResponseWriter, *Request)]: a handler is given by
    what it does to the response writer. *)
Abbreviation HandlerFunc := (ResponseWriter -> Request -> ResponseWriter).

Definition StatusOK : Z := 200.
Definition StatusNotFound : Z := 404.

(** [w.WriteHeader(code)]: the first call fixes the status line, later
    calls are ignored. *)
Definition WriteHeader (code : Z) (w : ResponseWriter) : ResponseWriter :=
  if wroteHeader w then w
  else {| wroteHeader := true; status := code; body := body w |}.

(** [w.Write(b)]: sends the header with 200 if none was written yet. *)
Definition Write (b : string) (w : ResponseWriter) : ResponseWriter :=
  let w' := WriteHeader StatusOK w in
  {| wroteHeader := true; status := status w'; body := body w' +:+ b |}.

Definition new_writer : ResponseWriter :=
  {| wroteHeader := false; status := 0; body := "" |}.

(** What the server sends once the handler has returned. *)
Definition finish (w : ResponseWriter) : Response :=
  {| StatusCode := if wroteHeader w then status w else StatusOK;
     Body := body w |}.

(** ** The world and the environment *)

(** Calls that leave the process. *)
Inductive Call :=
  | CallRegister (srv impl : loc)
  | CallListen (network addr : string)
  | CallServe (srv : loc) (lis : Listener)
  | CallListenAndServe (addr : string).

Record World := {
  grpc_servers : gmap loc grpc_Server;
  objects : gmap loc GrpcServer;
  http_servers : gmap loc HTTPServer;
  DefaultServeMux : gmap string HandlerFunc;
  stdout : list string;
  calls : list Call
}.

Definition world0 : World :=
  {| grpc_servers := ∅; objects := ∅; http_servers := ∅;
     DefaultServeMux := ∅; stdout := []; calls := [] |}.

Definition set_grpc_servers (f : gmap loc grpc_Server -> gmap loc grpc_Server)
    (w : World) : World :=
  {| grpc_servers := f (grpc_servers w); objects := objects w;
     http_servers := http_servers w; DefaultServeMux := DefaultServeMux w;
     stdout := stdout w; calls := calls w |}.

Definition set_objects (f : gmap loc GrpcServer -> gmap loc GrpcServer)
    (w : World) : World :=
  {| grpc_servers := grpc_servers w; objects := f (objects w);
     http_servers := http_servers w; DefaultServeMux := DefaultServeMux w;
     stdout := stdout w; calls := calls w |}.

Definition set_http_servers (f : gmap loc HTTPServer -> gmap loc HTTPServer)
    (w : World) : World :=
  {| grpc_servers := grpc_servers w; objects := objects w;
     http_servers := f (http_servers w); DefaultServeMux := DefaultServeMux w;
     stdout := stdout w; calls := calls w |}.

Definition set_mux (f : gmap string HandlerFunc -> gmap string HandlerFunc)
    (w : World) : World :=
  {| grpc_servers := grpc_servers w; objects := objects w;
     http_servers := http_servers w; DefaultServeMux := f (DefaultServeMux w);
     stdout := stdout w; calls := calls w |}.

Definition set_stdout (f : list string -> list string) (w : World) : World :=
  {| grpc_servers := grpc_servers w; objects := objects w;
     http_servers := http_servers w; DefaultServeMux := DefaultServeMux w;
     stdout := f (stdout w); calls := calls w |}.

Definition set_calls (f : list Call -> list Call) (w : World) : World :=
  {| grpc_servers := grpc_servers w; objects := objects w;
     http_servers := http_servers w; DefaultServeMux := DefaultServeMux w;
     stdout := stdout w; calls := f (calls w) |}.

(** Results of the calls that leave the repository.  [net_Listen] returns
    Go's pair [(lis, err)]; a serve loop either never returns ([None]) or
    returns its error value. *)
Record Env := {
  net_Listen : string -> string -> option Listener * error;
  grpc_Serve : Listener -> option error;
  http_ListenAndServe : string -> option error
}.

(** ** The Go monad *)

Inductive Outcome (A : Type) : Type :=
  | Ret (a : A)
  | Block
  | Exit (code : Z)
  | Panic (msg : string).
Arguments Ret {A} a.
Arguments Block {A}.
Arguments Exit {A} code.
Arguments Panic {A} msg.

Definition Go (A : Type) : Type := World -> Outcome A * World.

Definition ret {A} (a : A) : Go A := fun w => (Ret a, w).

Definition bind {A B} (m : Go A) (f : A -> Go B) : Go B :=
  fun w =>
    match m w with
    | (Ret a, w') => f a w'
    | (Block, w') => (Block, w')
    | (Exit c, w') => (Exit c, w')
    | (Panic msg, w') => (Panic msg, w')
    end.

Declare Scope go_scope.
Delimit Scope go_scope with go.
Notation "x <~ m ;; k" := (bind m (fun x => k))
  (at level 100, m at next level, right associativity) : go_scope.
Notation "m ;;; k" := (bind m (fun _ => k))
  (at level 100, right associativity) : go_scope.
Open Scope go_scope.

Definition panic {A} (msg : string) : Go A := fun w => (Panic msg, w).
Definition os_Exit {A} (code : Z) : Go A := fun w => (Exit code, w).

Definition nil_deref : string :=
  "runtime error: invalid memory address or nil pointer dereference".

(** The line feed that [fmt.Println] appends. *)
Definition nl : string := String "010"%char EmptyString.

(** [fmt.Println(s)] and [fmt.Printf] with the text already formatted. *)
Definition Println (s : string) : Go unit :=
  fun w => (Ret tt, set_stdout (fun out => out ++ [s +:+ nl]) w).

Definition Printf (s : string) : Go unit :=
  fun w => (Ret tt, set_stdout (fun out => out ++ [s]) w).

Definition record_call (c : Call) : Go unit :=
  fun w => (Ret tt, set_calls (fun cs => cs ++ [c]) w).

(** ** google.golang.org/grpc and the generated package pb *)

(** The service name of [service FrameService] in package
    [masterclass.go]. *)
Definition FrameService_name : string := "masterclass.go.FrameService".

(** [grpc.NewServer()] *)
Definition grpc_NewServer : Go loc :=
  fun w =>
    let l := fresh (dom (grpc_servers w)) in
    (Ret l, set_grpc_servers (insert l {| services := ∅; serve := false |}) w).

(** [pb.RegisterFrameServiceServer(srv, impl)].  grpc refuses, with
    [Fatalf] (exit status 1), a registration after [Serve] and a second
    registration of the same service. *)
Definition RegisterFrameServiceServer (srv impl : loc) : Go unit :=
  fun w =>
    match grpc_servers w !! srv with
    | None => (Panic nil_deref, w)
    | Some g =>
        if serve g then (Exit 1, w)
        else
          match services g !! FrameService_name with
          | Some _ => (Exit 1, w)
          | None =>
              (Ret tt,
               set_calls (fun cs => cs ++ [CallRegister srv impl])
                 (set_grpc_servers
                    (insert srv
                       {| services := <[FrameService_name := impl]> (services g);
                          serve := false |}) w))
          end
    end.

(** [net.Listen(network, addr)] *)
Definition Listen (env : Env) (network addr : string)
    : Go (option Listener * error) :=
  record_call (CallListen network addr) ;;;
  ret (net_Listen env network addr).

(** [srv.Serve(lis)]: the blocking accept loop. *)
Definition Serve (env : Env) (srv : loc) (lis : option Listener) : Go error :=
  fun w =>
    match grpc_servers w !! srv, lis with
    | None, _ => (Panic nil_deref, w)
    | Some _, None => (Panic nil_deref, w)
    | Some g, Some l =>
        let w' :=
          set_calls (fun cs => cs ++ [CallServe srv l])
            (set_grpc_servers
               (insert srv {| services := services g; serve := true |}) w) in
        match grpc_Serve env l with
        | None => (Block, w')
        | Some e => (Ret e, w')
        end
    end.

(** ** internal/grpc_server.go *)

Definition deref_GrpcServer (s : loc) : Go GrpcServer :=
  fun w =>
    match objects w !! s with
    | Some this => (Ret this, w)
    | None => (Panic nil_deref, w)
    end.

(** [func NewGrpcServer(address string) *GrpcServer] *)
Definition NewGrpcServer (address : string) : Go loc :=
  server <~ grpc_NewServer ;;
  fun w =>
    let s := fresh (dom (objects w)) in
    (Ret s,
     set_objects (insert s {| address := address; server := server |}) w).

(** [func (s *GrpcServer) Start() error], as in [internal/grpc_server.go]:
    the result of [Serve] is returned.  (The README's first listing of this
    method drops it and returns nil; the repository file is the one
    embedded.) *)
Definition Start (env : Env) (s : loc) : Go error :=
  this <~ deref_GrpcServer s ;;
  RegisterFrameServiceServer (server this) s ;;;
  r <~ Listen env "tcp" (address this) ;;
  let '(lis, err) := r in
  if is_err err then ret err
  else Serve env (server this) lis.

(** [func (s *GrpcServer) GetFrame(ctx, req)], returning a pointer to a
    [pb.Frame] and an error.  The returned pointer is given by the message
    it points to ([None] would be nil); the receiver is not dereferenced. *)
Definition GetFrame (s : loc) (ctx : Context) (req : option GetFrameRequest)
    : Go (option Frame * error) :=
  match req with
  | None => panic nil_deref
  | Some r => ret (Some {| Id := req_Id r |}, None)
  end.

(** ** internal/http_server *)

(** [http.HandleFunc(pattern, handler)] on the default mux; an empty
    pattern and a pattern registered twice make it panic. *)
Definition http_HandleFunc (pattern : string) (handler : HandlerFunc) : Go unit :=
  fun w =>
    if decide (pattern = "") then (Panic "http: invalid pattern", w)
    else
      match DefaultServeMux w !! pattern with
      | Some _ => (Panic ("http: multiple registrations for " +:+ pattern), w)
      | None => (Ret tt, set_mux (insert pattern handler) w)
      end.

Fixpoint ends_with_slash (p : string) : bool :=
  match p with
  | EmptyString => false
  | String c EmptyString => bool_decide (c = "/"%char)
  | String _ rest => ends_with_slash rest
  end.

(** One round of the mux's search for the longest registered pattern that
    ends in a slash and is a prefix of the path. *)
Definition longer (path : string) (best : option (string * HandlerFunc))
    (e : string * HandlerFunc) : option (string * HandlerFunc) :=
  if ends_with_slash e.1 && String.prefix e.1 path then
    match best with
    | Some b => if String.length b.1 <? String.length e.1 then Some e else best
    | None => Some e
    end
  else best.

(** [mux.match(path)]: an exact pattern wins, then the longest subtree
    pattern. *)
Definition mux_match (m : gmap string HandlerFunc) (p : string)
    : option HandlerFunc :=
  match m !! p with
  | Some h => Some h
  | None => snd <$> foldl (longer p) None (map_to_list m)
  end.

(** [http.NotFound] *)
Definition NotFound : HandlerFunc :=
  fun w _ => Write ("404 page not found" +:+ nl) (WriteHeader StatusNotFound w).

(** The default mux answering one request: what a server started with a nil
    handler does with it. *)
Definition mux_ServeHTTP (m : gmap string HandlerFunc) (r : Request) : Response :=
  finish (default NotFound (mux_match m (path r)) new_writer r).

(** [func HealthHandler(w http.ResponseWriter, r *http.Request)] *)
Definition HealthHandler : HandlerFunc :=
  fun w _ => WriteHeader StatusOK w.

Definition deref_HTTPServer (s : loc) : Go HTTPServer :=
  fun w =>
    match http_servers w !! s with
    | Some this => (Ret this, w)
    | None => (Panic nil_deref, w)
    end.

(** [func NewHTTPServer(address string) *HTTPServer] *)
Definition NewHTTPServer (address : string) : Go loc :=
  http_HandleFunc "/health" HealthHandler ;;;
  fun w =>
    let s := fresh (dom (http_servers w)) in
    (Ret s, set_http_servers (insert s {| http_address := address |}) w).

(** [http.ListenAndServe(addr, nil)] *)
Definition ListenAndServe (env : Env) (addr : string) : Go error :=
  record_call (CallListenAndServe addr) ;;;
  fun w =>
    match http_ListenAndServe env addr with
    | None => (Block, w)
    | Some e => (Ret e, w)
    end.

(** [func (s *HTTPServer) Start() error] *)
Definition HTTPServer_Start (env : Env) (s : loc) : Go error :=
  this <~ deref_HTTPServer s ;;
  ListenAndServe env (http_address this).

(** ** Processes *)

(** The exit status of a process whose [main] had the given outcome: 0 when
    [main] returns, the argument of [os.Exit], 2 after a panic, none while
    it blocks. *)
Definition exit_status (o : Outcome unit) : option Z :=
  match o with
  | Ret _ => Some 0%Z
  | Block => None
  | Exit c => Some c
  | Panic _ => Some 2%Z
  end.

(** ** cmd/main.go *)
Module cmd.

Definition main (env : Env) : Go unit :=
  Println "Starting server..." ;;;
  server <~ NewGrpcServer ":8080" ;;
  err <~ Start env server ;;
  match err with
  | Some e => Printf ("Error starting server: " +:+ e +:+ nl) ;;; os_Exit 1
  | None => ret tt
  end.

End cmd.

(** ** The wait-group entry point (README, "Go Routines", last listing) *)
Module host.

(** Where a listener goroutine stands in [startGrpcServer] /
    [startHTTPServer]. *)
Inductive TaskPC :=
  | NotSpawned
  | AtPrintln
  | AtNew
  | AtStart (s : loc)
  | InStart
  | AtIf (err : error)
  | AtDone (e : string)
  | Finished (err : error).

(** Where the main goroutine stands in [main]. *)
Inductive MainPC := AtAdd | AtGoGrpc | AtGoHTTP | AtWait | AtExit | Gone.

Inductive Status := Running | Exited (code : Z) | Crashed (msg : string).

Inductive Thread := TMain | TGrpc | THttp.

Record State := {
  world : World;
  wg : Z;
  main_pc : MainPC;
  grpc_pc : TaskPC;
  http_pc : TaskPC;
  proc : Status
}.

(** The two goroutine bodies,
    [fmt.Println(greeting); server := New(addr); err := server.Start();
     if err != nil { fmt.Println(err); wg.Done() }],
    have the same shape and differ in the text printed, the constructor and
    the [Start] method. *)
Record TaskCode := {
  greeting : string;
  construct : Go loc;
  start : loc -> Go error
}.

Definition startGrpcServer (env : Env) : TaskCode :=
  {| greeting := "Starting server...";
     construct := NewGrpcServer ":8080";
     start := Start env |}.

Definition startHTTPServer (env : Env) : TaskCode :=
  {| greeting := "Starting HTTP server...";
     construct := NewHTTPServer ":8081";
     start := HTTPServer_Start env |}.

(** One statement of a goroutine, run on the shared world. *)
Definition exec_go {A} (m : Go A) (pc : TaskPC) (k : A -> TaskPC)
    (w : World) : TaskPC * World * Status :=
  match m w with
  | (Ret a, w') => (k a, w', Running)
  | (Block, w') => (InStart, w', Running)
  | (Exit c, w') => (pc, w', Exited c)
  | (Panic msg, w') => (pc, w', Crashed msg)
  end.

(** One step of a listener goroutine; [None] when it cannot move. *)
Definition task_step (code : TaskCode) (pc : TaskPC) (w : World) (n : Z)
    : option (TaskPC * World * Z * Status) :=
  match pc with
  | NotSpawned | InStart | Finished _ => None
  | AtPrintln =>
      let '(pc', w', p) := exec_go (Println (greeting code)) pc (fun _ => AtNew) w in
      Some (pc', w', n, p)
  | AtNew =>
      let '(pc', w', p) := exec_go (construct code) pc AtStart w in
      Some (pc', w', n, p)
  | AtStart s =>
      let '(pc', w', p) := exec_go (start code s) pc AtIf w in
      Some (pc', w', n, p)
  | AtIf None => Some (Finished None, w, n, Running)
  | AtIf (Some e) =>
      let '(pc', w', p) := exec_go (Println e) pc (fun _ => AtDone e) w in
      Some (pc', w', n, p)
  | AtDone e =>
      if (n - 1 <? 0)%Z
      then Some (pc, w, n, Crashed "sync: negative WaitGroup counter")
      else Some (Finished (Some e), w, (n - 1)%Z, Running)
  end.

Definition init : State :=
  {| world := world0; wg := 0; main_pc := AtAdd;
     grpc_pc := NotSpawned; http_pc := NotSpawned; proc := Running |}.

(** One step of the main goroutine:
    [wg.Add(2); go startGrpcServer(wg); go startHTTPServer(wg); wg.Wait();
    os.Exit(1)]. *)
Definition main_step (st : State) : option State :=
  match main_pc st with
  | AtAdd =>
      Some {| world := world st; wg := (wg st + 2)%Z; main_pc := AtGoGrpc;
              grpc_pc := grpc_pc st; http_pc := http_pc st; proc := proc st |}
  | AtGoGrpc =>
      Some {| world := world st; wg := wg st; main_pc := AtGoHTTP;
              grpc_pc := AtPrintln; http_pc := http_pc st; proc := proc st |}
  | AtGoHTTP =>
      Some {| world := world st; wg := wg st; main_pc := AtWait;
              grpc_pc := grpc_pc st; http_pc := AtPrintln; proc := proc st |}
  | AtWait =>
      if decide (wg st = 0%Z)
      then Some {| world := world st; wg := wg st; main_pc := AtExit;
                   grpc_pc := grpc_pc st; http_pc := http_pc st;
                   proc := proc st |}
      else None
  | AtExit =>
      Some {| world := world st; wg := wg st; main_pc := Gone;
              grpc_pc := grpc_pc st; http_pc := http_pc st;
              proc := Exited 1 |}
  | Gone => None
  end.

(** One step of the chosen goroutine; nothing moves once the process has
    exited or crashed. *)
Definition step (env : Env) (t : Thread) (st : State) : option State :=
  match proc st with
  | Exited _ | Crashed _ => None
  | Running =>
      match t with
      | TMain => main_step st
      | TGrpc =>
          match task_step (startGrpcServer env) (grpc_pc st) (world st) (wg st) with
          | Some (pc', w', n', p') =>
              Some {| world := w'; wg := n'; main_pc := main_pc st;
                      grpc_pc := pc'; http_pc := http_pc st; proc := p' |}
          | None => None
          end
      | THttp =>
          match task_step (startHTTPServer env) (http_pc st) (world st) (wg st) with
          | Some (pc', w', n', p') =>
              Some {| world := w'; wg := n'; main_pc := main_pc st;
                      grpc_pc := grpc_pc st; http_pc := pc'; proc := p' |}
          | None => None
          end
      end
  end.

(** A schedule names the goroutine that moves next; a goroutine that
    cannot move leaves the state as it is. *)
Definition exec (env : Env) (sched : list Thread) (st : State) : State :=
  foldl (fun st t => default st (step env t st)) st sched.

Definition reachable (env : Env) (st : State) : Prop :=
  exists sched, exec env sched init = st.

End host.

(** ** Notions used by the statements *)

(** [s] points to a [GrpcServer] whose [grpc.Server] has not served yet and
    has no [FrameService] registered: the state in which [NewGrpcServer]
    leaves it. *)
Definition startable (w : World) (s : loc) : bool :=
  match objects w !! s with
  | Some this =>
      match grpc_servers w !! server this with
      | Some g =>
          negb (serve g) && bool_decide (services g !! FrameService_name = None)
      | None => false
      end
  | None => false
  end.

(** Binding [addr] fails with [e]. *)
Definition bind_fails (env : Env) (addr e : string) : Prop :=
  (net_Listen env "tcp" addr).2 = Some e.

(** Binding [addr] succeeds and the serve loop on it ends with [e]. *)
Definition serve_fails (env : Env) (addr e : string) : Prop :=
  exists lis, net_Listen env "tcp" addr = (Some lis, None) /\
              grpc_Serve env lis = Some (Some e).

(** [n] invocations of [m] in a row, with their results in order. *)
Fixpoint repeat_call {A} (n : nat) (m : Go A) : Go (list A) :=
  match n with
  | O => ret []
  | S k => a <~ m ;; rest <~ repeat_call k m ;; ret (a :: rest)
  end.

(** The operations of package [internal], as a client may issue them. *)
Inductive Op :=
  | OpNewGrpcServer (addr : string)
  | OpStart (s : loc)
  | OpGetFrame (s : loc) (ctx : Context) (req : option GetFrameRequest)
  | OpNewHTTPServer (addr : string)
  | OpHTTPStart (s : loc).

Definition run_op (env : Env) (o : Op) (w : World) : World :=
  match o with
  | OpNewGrpcServer addr => (NewGrpcServer addr w).2
  | OpStart s => (Start env s w).2
  | OpGetFrame s ctx req => (GetFrame s ctx req w).2
  | OpNewHTTPServer addr => (NewHTTPServer addr w).2
  | OpHTTPStart s => (HTTPServer_Start env s w).2
  end.

Definition run_ops (env : Env) (ops : list Op) (w : World) : World :=
  foldl (fun w o => run_op env o w) w ops.

(** The world in which [Start] reaches [net.Listen]: the service is
    registered and the call logged. *)
Definition registered (w : World) (s : loc) (this : GrpcServer) (g : grpc_Server)
    : World :=
  set_calls (fun cs => cs ++ [CallRegister (server this) s])
    (set_grpc_servers
       (insert (server this)
          {| services := <[FrameService_name := s]> (services g);
             serve := false |}) w).

Definition listening (w : World) (s : loc) (this : GrpcServer) (g : grpc_Server)
    : World :=
  set_calls (fun cs => cs ++ [CallListen "tcp" (address this)])
    (registered w s this g).

Definition serving (w : World) (s : loc) (this : GrpcServer) (g : grpc_Server)
    (l : Listener) : World :=
  set_calls (fun cs => cs ++ [CallServe (server this) l])
    (set_grpc_servers
       (insert (server this)
          {| services := <[FrameService_name := s]> (services g);
             serve := true |}) (listening w s this g)).

(** ** Notions for the wait-group entry point *)

(** What [Start] does on a server fresh from [NewGrpcServer addr], read off
    the environment. *)
Definition Start_outcome (env : Env) (addr : string) : Outcome error :=
  let '(lis, err) := net_Listen env "tcp" addr in
  match err with
  | Some e => Ret (Some e)
  | None =>
      match lis with
      | None => Panic nil_deref
      | Some l =>
          match grpc_Serve env l with
          | None => Block
          | Some r => Ret r
          end
      end
  end.

Definition HTTP_outcome (env : Env) (addr : string) : Outcome error :=
  match http_ListenAndServe env addr with
  | None => Block
  | Some r => Ret r
  end.

(** The RPC listener of the host fails with [e]: its bind or its serve loop
    does. *)
Definition grpc_fails (env : Env) (e : string) : Prop :=
  bind_fails env ":8080" e \/ serve_fails env ":8080" e.

(** The health listener of the host fails with [e]. *)
Definition http_fails (env : Env) (e : string) : Prop :=
  http_ListenAndServe env ":8081" = Some (Some e).

(** 1 when the goroutine has called [wg.Done()]. *)
Definition signalled (pc : host.TaskPC) : Z :=
  match pc with
  | host.Finished (Some _) => 1
  | _ => 0
  end.

(** How the goroutine's call of [Start] went, once that is known. *)
Definition result_of (pc : host.TaskPC) : option (Outcome error) :=
  match pc with
  | host.InStart => Some Block
  | host.AtIf r => Some (Ret r)
  | host.AtDone e => Some (Ret (Some e))
  | host.Finished r => Some (Ret r)
  | _ => None
  end.

(** The error the goroutine has printed. *)
Definition printed_err (pc : host.TaskPC) : option string :=
  match pc with
  | host.AtDone e | host.Finished (Some e) => Some e
  | _ => None
  end.

(** The counter of the wait group against the goroutines' positions. *)
Definition count_inv (st : host.State) : Prop :=
  match host.main_pc st with
  | host.AtAdd =>
      host.wg st = 0%Z /\ host.grpc_pc st = host.NotSpawned /\
      host.http_pc st = host.NotSpawned
  | host.AtGoGrpc =>
      host.wg st = 2%Z /\ host.grpc_pc st = host.NotSpawned /\
      host.http_pc st = host.NotSpawned
  | host.AtGoHTTP =>
      host.wg st = (2 - signalled (host.grpc_pc st))%Z /\
      host.grpc_pc st <> host.NotSpawned /\
      host.http_pc st = host.NotSpawned
  | host.AtWait =>
      host.wg st = (2 - signalled (host.grpc_pc st) - signalled (host.http_pc st))%Z /\
      host.grpc_pc st <> host.NotSpawned /\
      host.http_pc st <> host.NotSpawned
  | host.AtExit | host.Gone =>
      host.wg st = 0%Z /\
      signalled (host.grpc_pc st) = 1%Z /\ signalled (host.http_pc st) = 1%Z
  end.

(** What the goroutines' positions say about the environment and about
    standard output. *)
Definition res_inv (env : Env) (st : host.State) : Prop :=
  (forall o, result_of (host.grpc_pc st) = Some o -> Start_outcome env ":8080" = o) /\
  (forall o, result_of (host.http_pc st) = Some o -> HTTP_outcome env ":8081" = o) /\
  (forall e, printed_err (host.grpc_pc st) = Some e ->
             e +:+ nl ∈ stdout (host.world st)) /\
  (forall e, printed_err (host.http_pc st) = Some e ->
             e +:+ nl ∈ stdout (host.world st)).

(** What the goroutines' positions say about the heap and the mux. *)
Definition wld_inv (st : host.State) : Prop :=
  match host.grpc_pc st with
  | host.AtStart s =>
      startable (host.world st) s = true /\
      (address <$> objects (host.world st) !! s) = Some ":8080"
  | _ => True
  end /\
  match host.http_pc st with
  | host.NotSpawned | host.AtPrintln | host.AtNew =>
      DefaultServeMux (host.world st) !! "/health" = None
  | host.AtStart s =>
      (http_address <$> http_servers (host.world st) !! s) = Some ":8081"
  | _ => True
  end.

Definition proc_inv (env : Env) (st : host.State) : Prop :=
  match host.proc st with
  | host.Running => host.main_pc st <> host.Gone /\ wld_inv st
  | host.Exited c => c = 1%Z /\ host.main_pc st = host.Gone
  | host.Crashed _ => exists m, Start_outcome env ":8080" = Panic m
  end.

Definition host_inv (env : Env) (st : host.State) : Prop :=
  count_inv st /\ res_inv env st /\ proc_inv env st.

(** Steps left to each goroutine. *)
Definition task_rank (pc : host.TaskPC) : nat :=
  match pc with
  | host.NotSpawned => 6
  | host.AtPrintln => 5
  | host.AtNew => 4
  | host.AtStart _ => 3
  | host.AtIf _ => 2
  | host.AtDone _ => 1
  | host.InStart | host.Finished _ => 0
  end.

Definition main_rank (pc : host.MainPC) : nat :=
  match pc with
  | host.AtAdd => 5
  | host.AtGoGrpc => 4
  | host.AtGoHTTP => 3
  | host.AtWait => 2
  | host.AtExit => 1
  | host.Gone => 0
  end.

Definition rank (st : host.State) : nat :=
  main_rank (host.main_pc st) + task_rank (host.grpc_pc st)
  + task_rank (host.http_pc st).

(** The reading of the spec's [Failed] state: once a listener goroutine has
    seen its [Start] fail and printed the error, the process is on its way
    out with a non-zero status, whatever the other listener does. *)
Definition fatal_on_first_failure (env : Env) : Prop :=
  forall st,
    host.reachable env st ->
    is_Some (printed_err (host.grpc_pc st)) \/
    is_Some (printed_err (host.http_pc st)) ->
    exists sched c,
      host.proc (host.exec env sched st) = host.Exited c /\ c <> 0%Z.

(** A schedule in which the RPC goroutine runs to its end as soon as it is
    spawned. *)
Definition sched_grpc_first : list host.Thread :=
  [host.TMain; host.TMain; host.TGrpc; host.TGrpc; host.TGrpc; host.TGrpc;
   host.TGrpc; host.TMain; host.THttp; host.THttp; host.THttp; host.THttp;
   host.THttp; host.TMain; host.TMain].

(** ** README listings that precede the repository files *)

(** The first listing of [internal/grpc_server.go] (README, "Dependency
    Injection"). *)
Module readme.

(** [func (s *GrpcServer) Start() error] with
    [s.server.Serve(lis); return nil] as its last two statements. *)
Definition Start (env : Env) (s : loc) : Go error :=
  this <~ deref_GrpcServer s ;;
  RegisterFrameServiceServer (server this) s ;;;
  r <~ Listen env "tcp" (address this) ;;
  let '(lis, err) := r in
  if is_err err then ret err
  else (Serve env (server this) lis ;;; ret None).

(** [func (s *GrpcServer) GetFrame(ctx, in)] returning [Frame{Id: 1}];
    the request [in] is not read. *)
Definition GetFrame (s : loc) (ctx : Context) (req : option GetFrameRequest)
    : Go (option Frame * error) :=
  ret (Some {| Id := 1 |}, None).

End readme.

(** The entry point that starts the two servers one after the other
    (README, "Go Routines", second listing). *)
Module sequential.

Definition main (env : Env) : Go unit :=
  Println "Starting server..." ;;;
  server <~ NewGrpcServer ":8080" ;;
  err <~ Start env server ;;
  match err with
  | Some e => Println e ;;; os_Exit 1
  | None => ret tt
  end ;;;
  Println "Starting HTTP server..." ;;;
  httpServer <~ NewHTTPServer ":8081" ;;
  err <~ HTTPServer_Start env httpServer ;;
  match err with
  | Some e => Println e ;;; os_Exit 1
  | None => ret tt
  end.

End sequential.

(** The entry point that spawns the two goroutines and returns (README,
    "Go Routines", third listing): the goroutines exit the process
    themselves, [main] does not wait. *)
Module nowait.

(** Where a listener goroutine stands in
    [fmt.Println(greeting); server := New(addr); err := server.Start();
     if err != nil { fmt.Println(err); os.Exit(1) }]. *)
Inductive TaskPC :=
  | NotSpawned
  | AtPrintln
  | AtNew
  | AtStart (s : loc)
  | InStart
  | AtIf (err : error)
  | AtOsExit (e : string)
  | Finished.

(** Where the main goroutine stands in
    [go startGrpcServer(); go startHTTPServer()] and the return. *)
Inductive MainPC := AtGoGrpc | AtGoHTTP | AtReturn | Gone.

Record State := {
  world : World;
  main_pc : MainPC;
  grpc_pc : TaskPC;
  http_pc : TaskPC;
  proc : host.Status
}.

Definition exec_go {A} (m : Go A) (pc : TaskPC) (k : A -> TaskPC)
    (w : World) : TaskPC * World * host.Status :=
  match m w with
  | (Ret a, w') => (k a, w', host.Running)
  | (Block, w') => (InStart, w', host.Running)
  | (Exit c, w') => (pc, w', host.Exited c)
  | (Panic msg, w') => (pc, w', host.Crashed msg)
  end.

(** One step of a listener goroutine; [None] when it cannot move. *)
Definition task_step (code : host.TaskCode) (pc : TaskPC) (w : World)
    : option (TaskPC * World * host.Status) :=
  match pc with
  | NotSpawned | InStart | Finished => None
  | AtPrintln =>
      Some (exec_go (Println (host.greeting code)) pc (fun _ => AtNew) w)
  | AtNew => Some (exec_go (host.construct code) pc AtStart w)
  | AtStart s => Some (exec_go (host.start code s) pc AtIf w)
  | AtIf None => Some (Finished, w, host.Running)
  | AtIf (Some e) => Some (exec_go (Println e) pc (fun _ => AtOsExit e) w)
  | AtOsExit e => Some (pc, w, host.Exited 1)
  end.

Definition init : State :=
  {| world := world0; main_pc := AtGoGrpc;
     grpc_pc := NotSpawned; http_pc := NotSpawned; proc := host.Running |}.

(** One step of the main goroutine; returning from [main] ends the process
    with status 0. *)
Definition main_step (st : State) : option State :=
  match main_pc st with
  | AtGoGrpc =>
      Some {| world := world st; main_pc := AtGoHTTP;
              grpc_pc := AtPrintln; http_pc := http_pc st; proc := proc st |}
  | AtGoHTTP =>
      Some {| world := world st; main_pc := AtReturn;
              grpc_pc := grpc_pc st; http_pc := AtPrintln; proc := proc st |}
  | AtReturn =>
      Some {| world := world st; main_pc := Gone;
              grpc_pc := grpc_pc st; http_pc := http_pc st;
              proc := host.Exited 0 |}
  | Gone => None
  end.

Definition step (env : Env) (t : host.Thread) (st : State) : option State :=
  match proc st with
  | host.Exited _ | host.Crashed _ => None
  | host.Running =>
      match t with
      | host.TMain => main_step st
      | host.TGrpc =>
          match task_step (host.startGrpcServer env) (grpc_pc st) (world st) with
          | Some (pc', w', p') =>
              Some {| world := w'; main_pc := main_pc st;
                      grpc_pc := pc'; http_pc := http_pc st; proc := p' |}
          | None => None
          end
      | host.THttp =>
          match task_step (host.startHTTPServer env) (http_pc st) (world st) with
          | Some (pc', w', p') =>
              Some {| world := w'; main_pc := main_pc st;
                      grpc_pc := grpc_pc st; http_pc := pc'; proc := p' |}
          | None => None
          end
      end
  end.

Definition exec (env : Env) (sched : list host.Thread) (st : State) : State :=
  foldl (fun st t => default st (step env t st)) st sched.

Definition reachable (env : Env) (st : State) : Prop :=
  exists sched, exec env sched init = st.

(** How the goroutine's call of [Start] went, once that is known. *)
Definition result_of (pc : TaskPC) : option (Outcome error) :=
  match pc with
  | InStart => Some Block
  | AtIf r => Some (Ret r)
  | AtOsExit e => Some (Ret (Some e))
  | Finished => Some (Ret None)
  | _ => None
  end.

Definition printed_err (pc : TaskPC) : option string :=
  match pc with
  | AtOsExit e => Some e
  | _ => None
  end.

Definition res_inv (env : Env) (st : State) : Prop :=
  (forall o, result_of (grpc_pc st) = Some o -> Start_outcome env ":8080" = o) /\
  (forall o, result_of (http_pc st) = Some o -> HTTP_outcome env ":8081" = o) /\
  (forall e, printed_err (grpc_pc st) = Some e -> e +:+ nl ∈ stdout (world st)) /\
  (forall e, printed_err (http_pc st) = Some e -> e +:+ nl ∈ stdout (world st)).

Definition wld_inv (st : State) : Prop :=
  match grpc_pc st with
  | AtStart s =>
      startable (world st) s = true /\
      (address <$> objects (world st) !! s) = Some ":8080"
  | _ => True
  end /\
  match http_pc st with
  | NotSpawned | AtPrintln | AtNew =>
      DefaultServeMux (world st) !! "/health" = None
  | AtStart s =>
      (http_address <$> http_servers (world st) !! s) = Some ":8081"
  | _ => True
  end.

Definition proc_inv (env : Env) (st : State) : Prop :=
  match proc st with
  | host.Running => main_pc st <> Gone /\ wld_inv st
  | host.Exited c =>
      (c = 0%Z /\ main_pc st = Gone) \/
      (c = 1%Z /\ main_pc st <> Gone /\
       (is_Some (printed_err (grpc_pc st)) \/ is_Some (printed_err (http_pc st))))
  | host.Crashed _ => exists m, Start_outcome env ":8080" = Panic m
  end.

(** A goroutine does not exist before its [go] statement. *)
Definition spawn_inv (st : State) : Prop :=
  match main_pc st with
  | AtGoGrpc => grpc_pc st = NotSpawned /\ http_pc st = NotSpawned
  | AtGoHTTP => http_pc st = NotSpawned
  | AtReturn | Gone => True
  end.

Definition inv (env : Env) (st : State) : Prop :=
  spawn_inv st /\ res_inv env st /\ proc_inv env st.

End nowait.

(** Environments and worlds used as concrete inputs. *)
Definition addr_in_use : string := "listen tcp :8080: bind: address already in use".

Definition env_bind_fails : Env :=
  {| net_Listen := fun _ _ => (None, Some addr_in_use);
     grpc_Serve := fun _ => None;
     http_ListenAndServe := fun _ => None |}.

Definition env_serve_fails : Env :=
  {| net_Listen := fun _ a => (Some {| laddr := a |}, None);
     grpc_Serve := fun _ => Some (Some "accept tcp: use of closed network connection");
     http_ListenAndServe := fun _ => Some (Some "http: Server closed") |}.

Definition env_serving : Env :=
  {| net_Listen := fun _ a => (Some {| laddr := a |}, None);
     grpc_Serve := fun _ => None;
     http_ListenAndServe := fun _ => None |}.

Definition ctx_background : Context :=
  {| ctx_deadline := None; ctx_done := false; ctx_err := None; ctx_values := [] |}.

Definition ctx_cancelled : Context :=
  {| ctx_deadline := Some 5%Z; ctx_done := true;
     ctx_err := Some "context canceled"; ctx_values := [("trace", "abc")] |}.

(** The world of a process that has only constructed one [GrpcServer]. *)
Definition world_new : World := (NewGrpcServer ":8080" world0).2.

(** * Theorems *)

(** ** The monad *)

Lemma bind_ret {A B} (m : Go A) (f : A -> Go B) w a w' :
  m w = (Ret a, w') -> bind m f w = f a w'.
Proof. intros H. unfold bind. now rewrite H. Qed.

(** ** GetFrame *)

Lemma GetFrame_some s ctx r w :
  GetFrame s ctx (Some r) w = (Ret (Some {| Id := req_Id r |}, None), w).
Proof. reflexivity. Qed.

Lemma GetFrame_world s ctx req w : (GetFrame s ctx req w).2 = w.
Proof. destruct req; reflexivity. Qed.

(** C1. For every request with id [x] (zero and negative included),
    [GetFrame] returns, with a nil error, a frame whose id is [x]; no
    condition on [x], the receiver, the context or the world is needed. *)
Theorem GetFrame_echo (s : loc) (ctx : Context) (x : Z) (w : World) :
  GetFrame s ctx (Some {| req_Id := x |}) w
  = (Ret (Some {| Id := x |}, None), w).
Proof. reflexivity. Qed.

Lemma GetFrame_int32 s ctx r w :
  int32_range (req_Id r) ->
  exists f, (GetFrame s ctx (Some r) w).1 = Ret (Some f, None) /\ int32_range (Id f).
Proof. intros Hr. by exists {| Id := req_Id r |}. Qed.

Example echo_id_1 :
  (GetFrame 0 ctx_background (Some {| req_Id := 1 |}) world0).1
  = Ret (Some {| Id := 1 |}, None).
Proof. reflexivity. Qed.

Example echo_id_neg5 :
  (GetFrame 0 ctx_background (Some {| req_Id := -5 |}) world0).1
  = Ret (Some {| Id := -5 |}, None).
Proof. reflexivity. Qed.

Lemma repeat_call_GetFrame n s ctx r w :
  repeat_call n (GetFrame s ctx (Some r)) w
  = (Ret (replicate n (Some {| Id := req_Id r |}, None)), w).
Proof.
  induction n as [|n IH]; [reflexivity|].
  cbn [repeat_call replicate].
  rewrite (bind_ret _ _ _ _ _ (GetFrame_some s ctx r w)).
  now rewrite (bind_ret _ _ _ _ _ IH).
Qed.

(** C7. Repeating [GetFrame] with the same id gives the same response each
    time: [n] calls in a row return [n] copies of one response and leave
    the world as it was, and any two invocations with the same request
    agree, whatever the worlds they run in (so whatever ran in between). *)
Theorem GetFrame_idempotent (s : loc) (ctx : Context) (x : Z) :
  (forall (n : nat) (w : World),
      repeat_call n (GetFrame s ctx (Some {| req_Id := x |})) w
      = (Ret (replicate n (Some {| Id := x |}, None)), w)) /\
  (forall (w1 w2 : World),
      (GetFrame s ctx (Some {| req_Id := x |}) w1).1
      = (GetFrame s ctx (Some {| req_Id := x |}) w2).1) /\
  (forall (env : Env) (ops : list Op) (w : World),
      (GetFrame s ctx (Some {| req_Id := x |}) (run_ops env ops w)).1
      = (GetFrame s ctx (Some {| req_Id := x |}) w).1).
Proof.
  split; [|split].
  - intros n w. apply (repeat_call_GetFrame n s ctx {| req_Id := x |} w).
  - reflexivity.
  - reflexivity.
Qed.

(** C10. The result of [GetFrame] does not depend on the context: for every
    request (nil included) and contexts [c1], [c2] the two calls have the
    same outcome and leave the same world; for a request that is not nil
    both return the frame fixed by the request's id, with a nil error. *)
Theorem GetFrame_context_independent
    (s : loc) (c1 c2 : Context) (req : option GetFrameRequest) (w : World) :
  GetFrame s c1 req w = GetFrame s c2 req w /\
  (forall r : GetFrameRequest,
     GetFrame s c1 (Some r) w = (Ret (Some {| Id := req_Id r |}, None), w) /\
     GetFrame s c2 (Some r) w = (Ret (Some {| Id := req_Id r |}, None), w)).
Proof.
  split; [destruct req; reflexivity|].
  intros r. split; reflexivity.
Qed.

(** ** Start *)

Lemma startable_inv w s :
  startable w s = true ->
  exists this g,
    objects w !! s = Some this /\
    grpc_servers w !! server this = Some g /\
    serve g = false /\
    services g !! FrameService_name = None.
Proof.
  unfold startable. intros H.
  destruct (objects w !! s) as [this|]; [|discriminate].
  destruct (grpc_servers w !! server this) as [g|] eqn:Hg; [|discriminate].
  apply andb_true_iff in H as [H1 H2].
  apply negb_true_iff in H1. apply bool_decide_eq_true in H2.
  exists this, g. repeat split; auto.
Qed.

(** [Start] on a startable server, by the result of [net.Listen]. *)
Lemma Start_unfold env w s this g :
  objects w !! s = Some this ->
  grpc_servers w !! server this = Some g ->
  serve g = false ->
  services g !! FrameService_name = None ->
  Start env s w =
    let '(lis, err) := net_Listen env "tcp" (address this) in
    match err with
    | Some e => (Ret (Some e), listening w s this g)
    | None =>
        match lis with
        | None => (Panic nil_deref, listening w s this g)
        | Some l =>
            match grpc_Serve env l with
            | None => (Block, serving w s this g l)
            | Some r => (Ret r, serving w s this g l)
            end
        end
    end.
Proof.
  intros Hs Hg Hserve Hsvc.
  unfold Start, bind, deref_GrpcServer, RegisterFrameServiceServer, Listen,
    record_call, ret.
  rewrite Hs, Hg, Hserve, Hsvc. cbn.
  destruct (net_Listen env "tcp" (address this)) as [lis [e|]]; cbn.
  - reflexivity.
  - unfold Serve. cbn. rewrite lookup_insert_eq.
    destruct lis as [l|]; [|reflexivity].
    unfold serving, listening, registered, set_calls, set_grpc_servers. cbn.
    rewrite insert_insert_eq.
    destruct (grpc_Serve env l); reflexivity.
Qed.

Lemma NewGrpcServer_unfold addr w :
  NewGrpcServer addr w =
    (Ret (fresh (dom (objects w))),
     set_objects
       (insert (fresh (dom (objects w)))
          {| address := addr; server := fresh (dom (grpc_servers w)) |})
       (set_grpc_servers
          (insert (fresh (dom (grpc_servers w)))
             {| services := ∅; serve := false |}) w)).
Proof. reflexivity. Qed.

Lemma fresh_lookup {V} (m : gmap loc V) : m !! fresh (dom m) = None.
Proof. apply not_elem_of_dom, is_fresh. Qed.

Lemma NewGrpcServer_startable addr w s w' :
  NewGrpcServer addr w = (Ret s, w') -> startable w' s = true.
Proof.
  rewrite NewGrpcServer_unfold. intros [= <- <-].
  unfold startable, set_objects, set_grpc_servers. cbn.
  rewrite lookup_insert_eq. cbn. rewrite lookup_insert_eq. cbn.
  rewrite lookup_empty. reflexivity.
Qed.

(** C3. If binding the configured address fails in [Start], [Start] returns
    that error at once: on a server fresh from [NewGrpcServer] the call
    consists of the registration and the one [net.Listen] and returns the
    bind error; and in every world [Start] then neither blocks nor calls
    [Serve], and leaves the serving flag of the [grpc.Server] as it was. *)
Theorem Start_bind_error (env : Env) (w : World) (s : loc) (this : GrpcServer)
    (lis : option Listener) (e : string) :
  objects w !! s = Some this ->
  net_Listen env "tcp" (address this) = (lis, Some e) ->
  (startable w s = true ->
   exists w',
     Start env s w = (Ret (Some e), w') /\
     calls w' = calls w ++ [CallRegister (server this) s;
                            CallListen "tcp" (address this)]) /\
  (Start env s w).1 <> Block /\
  (forall srv l,
     CallServe srv l ∈ calls (Start env s w).2 -> CallServe srv l ∈ calls w) /\
  (serve <$> grpc_servers (Start env s w).2 !! server this)
  = (serve <$> grpc_servers w !! server this).
Proof.
  intros Hs Hl. split.
  - intros Hst.
    destruct (startable_inv _ _ Hst) as (this' & g & Hs' & Hg & Hserve & Hsvc).
    rewrite Hs in Hs'. injection Hs' as <-.
    rewrite (Start_unfold env w s this g Hs Hg Hserve Hsvc), Hl.
    eexists; split; [reflexivity|].
    unfold listening, registered, set_calls, set_grpc_servers; cbn.
    by rewrite <- app_assoc.
  - unfold Start, bind, deref_GrpcServer, RegisterFrameServiceServer, Listen,
      record_call, ret.
    rewrite Hs.
    destruct (grpc_servers w !! server this) as [g|] eqn:Hg;
      [|cbn; by rewrite Hg].
    destruct (serve g) eqn:Hserve; [cbn; by rewrite Hg|].
    destruct (services g !! FrameService_name); [cbn; by rewrite Hg|].
    rewrite Hl. cbn. split; [discriminate|]. split.
    + intros srv l. rewrite !elem_of_app, !list_elem_of_singleton.
      intros [[H|H]|H]; [done|discriminate|discriminate].
    + rewrite lookup_insert_eq, Hserve. reflexivity.
Qed.

Lemma Start_bind_error_witness :
  (startable world_new 0 = true ->
   exists w',
     Start env_bind_fails 0 world_new = (Ret (Some addr_in_use), w') /\
     calls w' = calls world_new ++ [CallRegister 0 0; CallListen "tcp" ":8080"]) /\
  (Start env_bind_fails 0 world_new).1 <> Block /\
  (forall srv l,
     CallServe srv l ∈ calls (Start env_bind_fails 0 world_new).2 ->
     CallServe srv l ∈ calls world_new) /\
  (serve <$> grpc_servers (Start env_bind_fails 0 world_new).2 !! 0)
  = (serve <$> grpc_servers world_new !! 0).
Proof.
  apply (Start_bind_error env_bind_fails world_new 0
           {| address := ":8080"; server := 0 |} None addr_in_use);
    reflexivity.
Defined.

Example world_new_startable : startable world_new 0 = true.
Proof. reflexivity. Qed.

(** [Start] gets past the registration only on a startable server. *)
Lemma Start_past_registration env w s :
  (forall c, (Start env s w).1 <> Exit c) ->
  (Start env s w).1 <> Panic nil_deref ->
  startable w s = true.
Proof.
  unfold Start, bind, deref_GrpcServer, RegisterFrameServiceServer, startable.
  destruct (objects w !! s) as [this|]; [|by intros _ []].
  destruct (grpc_servers w !! server this) as [g|]; [|by intros _ []].
  destruct (serve g); [by intros H; destruct (H 1%Z)|].
  destruct (services g !! FrameService_name);
    [by intros H; destruct (H 1%Z)|].
  reflexivity.
Qed.

Lemma Start_returns env w s this :
  objects w !! s = Some this ->
  startable w s = true ->
  forall e,
    (exists w', Start env s w = (Ret (Some e), w')) <->
    bind_fails env (address this) e \/ serve_fails env (address this) e.
Proof.
  intros Hs Hst.
  destruct (startable_inv _ _ Hst) as (this' & g & Hs' & Hg & Hserve & Hsvc).
  rewrite Hs in Hs'. injection Hs' as <-.
  rewrite (Start_unfold env w s this g Hs Hg Hserve Hsvc).
  unfold bind_fails, serve_fails.
  intros e. destruct (net_Listen env "tcp" (address this)) as [lis [e'|]]; cbn.
  - split.
    + intros [w' [= ->]]. by left.
    + intros [[= ->]|(l & [=] & _)]. eauto.
  - destruct lis as [l|].
    + split.
      * intros [w' H]. right. exists l. split; [reflexivity|].
        destruct (grpc_Serve env l) as [r|]; [|discriminate].
        by injection H as -> _.
      * intros [[=]|(l' & [= <-] & H)]. rewrite H. eauto.
    + split.
      * intros [w' [=]].
      * intros [[=]|(l' & [=] & _)].
Qed.

(** C4. On a successful bind [Start] enters the serve loop (it blocks while
    the loop runs) and returns the loop's error when the loop ends; so
    [Start] returns a non-nil error [e] exactly when the bind fails with
    [e] or the serve loop ends with [e]: a returned error is always one of
    the two, and on a server fresh from [NewGrpcServer] each of the two
    makes [Start] return it. *)
Theorem Start_serve_error (env : Env) (w : World) (s : loc) (this : GrpcServer) :
  objects w !! s = Some this ->
  (startable w s = true ->
   forall l, net_Listen env "tcp" (address this) = (Some l, None) ->
     exists w',
       Start env s w
       = (match grpc_Serve env l with None => Block | Some r => Ret r end, w') /\
       CallServe (server this) l ∈ calls w' /\
       (serve <$> grpc_servers w' !! server this) = Some true) /\
  (forall e,
     (exists w', Start env s w = (Ret (Some e), w')) ->
     bind_fails env (address this) e \/ serve_fails env (address this) e) /\
  (startable w s = true ->
   forall e,
     (exists w', Start env s w = (Ret (Some e), w')) <->
     bind_fails env (address this) e \/ serve_fails env (address this) e).
Proof.
  intros Hs.
  pose proof (Start_returns env w s this Hs) as Hiff.
  split; [|split; [|exact Hiff]].
  - intros Hst l Hl.
    destruct (startable_inv _ _ Hst) as (this' & g & Hs' & Hg & Hserve & Hsvc).
    rewrite Hs in Hs'. injection Hs' as <-.
    rewrite (Start_unfold env w s this g Hs Hg Hserve Hsvc), Hl.
    exists (serving w s this g l). split; [|split].
    + destruct (grpc_Serve env l); reflexivity.
    + unfold serving, set_calls; cbn. apply elem_of_app; right.
      apply list_elem_of_singleton; reflexivity.
    + unfold serving, set_calls, set_grpc_servers; cbn.
      by rewrite lookup_insert_eq.
  - intros e [w' Hret]. apply Hiff; [|by exists w'].
    apply (Start_past_registration env); rewrite Hret; cbn; discriminate.
Qed.

Lemma Start_serve_error_witness :
  (startable world_new 0 = true ->
   forall l, net_Listen env_serve_fails "tcp" ":8080" = (Some l, None) ->
     exists w',
       Start env_serve_fails 0 world_new
       = (match grpc_Serve env_serve_fails l with
          | None => Block | Some r => Ret r end, w') /\
       CallServe 0 l ∈ calls w' /\
       (serve <$> grpc_servers w' !! 0) = Some true) /\
  (forall e,
     (exists w', Start env_serve_fails 0 world_new = (Ret (Some e), w')) ->
     bind_fails env_serve_fails ":8080" e \/ serve_fails env_serve_fails ":8080" e) /\
  (startable world_new 0 = true ->
   forall e,
     (exists w', Start env_serve_fails 0 world_new = (Ret (Some e), w')) <->
     bind_fails env_serve_fails ":8080" e \/ serve_fails env_serve_fails ":8080" e).
Proof.
  apply (Start_serve_error env_serve_fails world_new 0
           {| address := ":8080"; server := 0 |}); reflexivity.
Defined.

Example serve_error_is_returned :
  (Start env_serve_fails 0 world_new).1
  = Ret (Some "accept tcp: use of closed network connection").
Proof. reflexivity. Qed.

Example Start_blocks_while_serving : (Start env_serving 0 world_new).1 = Block.
Proof. reflexivity. Qed.

(** ** The configuration is not written after construction *)

Lemma Start_objects env s w : objects (Start env s w).2 = objects w.
Proof.
  unfold Start, bind, deref_GrpcServer, RegisterFrameServiceServer, Listen,
    record_call, ret, Serve.
  repeat (case_match; simplify_eq/=; try reflexivity).
Qed.

Lemma HTTPServer_Start_objects env s w :
  objects (HTTPServer_Start env s w).2 = objects w.
Proof.
  unfold HTTPServer_Start, bind, deref_HTTPServer, ListenAndServe, record_call.
  repeat (case_match; simplify_eq/=; try reflexivity).
Qed.

Lemma NewHTTPServer_objects addr w :
  objects (NewHTTPServer addr w).2 = objects w.
Proof.
  unfold NewHTTPServer, bind, http_HandleFunc.
  repeat (case_match; simplify_eq/=; try reflexivity).
Qed.

Lemma run_op_objects env o w s v :
  objects w !! s = Some v -> objects (run_op env o w) !! s = Some v.
Proof.
  intros Hs. destruct o as [addr|s'|s' ctx req|addr|s']; unfold run_op.
  - rewrite NewGrpcServer_unfold; cbn.
    rewrite lookup_insert_ne; [done|].
    intros Heq. rewrite <- Heq, fresh_lookup in Hs. discriminate.
  - by rewrite Start_objects.
  - by rewrite GetFrame_world.
  - by rewrite NewHTTPServer_objects.
  - by rewrite HTTPServer_Start_objects.
Qed.

Lemma run_ops_objects env ops w s v :
  objects w !! s = Some v -> objects (run_ops env ops w) !! s = Some v.
Proof.
  revert w. induction ops as [|o ops IH]; intros w Hs; [exact Hs|].
  cbn. apply IH, run_op_objects, Hs.
Qed.

(** C8. The configuration is not written after construction: the
    [GrpcServer] made by [NewGrpcServer addr] keeps its address [addr] (and
    its [server] pointer) through every sequence of later operations of the
    package, and [Start] leaves every [GrpcServer] value as it found it. *)
Theorem GrpcServer_config_immutable (env : Env) (addr : string) (w w' : World)
    (s : loc) (ops : list Op) :
  NewGrpcServer addr w = (Ret s, w') ->
  (address <$> objects w' !! s) = Some addr /\
  objects (run_ops env ops w') !! s = objects w' !! s /\
  (forall s2 w2, objects (Start env s2 w2).2 = objects w2).
Proof.
  rewrite NewGrpcServer_unfold. intros [= <- <-]. cbn.
  rewrite lookup_insert_eq. split; [reflexivity|]. split.
  - apply run_ops_objects. cbn. by rewrite lookup_insert_eq.
  - intros s2 w2. apply Start_objects.
Qed.

Lemma GrpcServer_config_immutable_witness :
  (address <$> objects world_new !! 0) = Some ":8080" /\
  objects (run_ops env_serve_fails
             [OpStart 0; OpGetFrame 0 ctx_cancelled (Some {| req_Id := 7 |});
              OpNewGrpcServer ":9090"; OpStart 1; OpStart 0]
             world_new) !! 0
  = objects world_new !! 0 /\
  (forall s2 w2, objects (Start env_serve_fails s2 w2).2 = objects w2).
Proof.
  apply (GrpcServer_config_immutable env_serve_fails ":8080" world0 world_new 0).
  reflexivity.
Defined.

(** ** cmd/main.go *)

Lemma Start_stdout env w s :
  startable w s = true -> stdout (Start env s w).2 = stdout w.
Proof.
  intros Hst.
  destruct (startable_inv _ _ Hst) as (this & g & Hs & Hg & Hserve & Hsvc).
  rewrite (Start_unfold env w s this g Hs Hg Hserve Hsvc).
  repeat (case_match; simplify_eq/=; try reflexivity).
Qed.

(** C5. The minimal entry point starts the RPC listener and, when [Start]
    returns an error [e] (the bind failed with [e], or the serve loop ended
    with [e]), prints "Error starting server: e" and exits with status 1. *)
Theorem cmd_main_exit_1 (env : Env) (w : World) (e : string) :
  bind_fails env ":8080" e \/ serve_fails env ":8080" e ->
  exists s w1 w2,
    NewGrpcServer ":8080" (Println "Starting server..." w).2 = (Ret s, w1) /\
    Start env s w1 = (Ret (Some e), w2) /\
    CallListen "tcp" ":8080" ∈ calls w2 /\
    cmd.main env w
    = (Exit 1,
       set_stdout (fun out => out ++ ["Error starting server: " +:+ e +:+ nl]) w2) /\
    stdout (cmd.main env w).2
    = stdout w ++ ["Starting server..." +:+ nl;
                   "Error starting server: " +:+ e +:+ nl] /\
    exit_status (cmd.main env w).1 = Some 1%Z.
Proof.
  intros Hfail.
  destruct (NewGrpcServer ":8080" (Println "Starting server..." w).2)
    as [o w1] eqn:Hnew.
  pose proof Hnew as Hnew'. rewrite NewGrpcServer_unfold in Hnew'.
  injection Hnew' as <- Hw1.
  set (s := fresh (dom (objects (Println "Starting server..." w).2))) in *.
  pose proof (NewGrpcServer_startable _ _ _ _ Hnew) as Hst.
  assert (Hobj : objects w1 !! s
                 = Some {| address := ":8080";
                           server := fresh (dom (grpc_servers (Println "Starting server..." w).2)) |}).
  { rewrite <- Hw1. cbn. by rewrite lookup_insert_eq. }
  pose proof (Start_returns env w1 s _ Hobj Hst) as Hiff.
  destruct (proj2 (Hiff e) Hfail) as [w2 Hstart].
  assert (Hcall : CallListen "tcp" ":8080" ∈ calls w2).
  { destruct (startable_inv _ _ Hst) as (this & g & Hs & Hg & Hserve & Hsvc).
    pose proof (eq_trans (eq_sym Hobj) Hs) as Heq. injection Heq as <-.
    rewrite (Start_unfold env w1 s _ g Hobj Hg Hserve Hsvc) in Hstart.
    cbn in Hstart.
    repeat (case_match; simplify_eq/=);
      rewrite ?elem_of_app, ?list_elem_of_singleton; auto. }
  assert (Hout : stdout w2 = stdout w ++ ["Starting server..." +:+ nl]).
  { pose proof (Start_stdout env w1 s Hst) as H. rewrite Hstart in H. cbn in H.
    rewrite H, <- Hw1. reflexivity. }
  assert (Hmain : cmd.main env w
    = (Exit 1,
       set_stdout (fun out => out ++ ["Error starting server: " +:+ e +:+ nl]) w2)).
  { unfold cmd.main.
    rewrite (bind_ret _ _ w tt (Println "Starting server..." w).2 eq_refl).
    rewrite (bind_ret _ _ _ _ _ Hnew).
    rewrite (bind_ret _ _ _ _ _ Hstart).
    reflexivity. }
  exists s, w1, w2. rewrite Hmain. cbn. rewrite Hout, <- app_assoc. auto 10.
Qed.

Lemma cmd_main_exit_1_witness :
  exists s w1 w2,
    NewGrpcServer ":8080" (Println "Starting server..." world0).2 = (Ret s, w1) /\
    Start env_bind_fails s w1 = (Ret (Some addr_in_use), w2) /\
    CallListen "tcp" ":8080" ∈ calls w2 /\
    cmd.main env_bind_fails world0
    = (Exit 1,
       set_stdout
         (fun out => out ++ ["Error starting server: " +:+ addr_in_use +:+ nl]) w2) /\
    stdout (cmd.main env_bind_fails world0).2
    = stdout world0 ++ ["Starting server..." +:+ nl;
                        "Error starting server: " +:+ addr_in_use +:+ nl] /\
    exit_status (cmd.main env_bind_fails world0).1 = Some 1%Z.
Proof.
  apply (cmd_main_exit_1 env_bind_fails world0 addr_in_use).
  left. reflexivity.
Defined.

Example cmd_main_blocks_while_serving :
  (cmd.main env_serving world0).1 = Block.
Proof. reflexivity. Qed.

(** ** The health route *)

Lemma mux_ServeHTTP_exact m p h r :
  m !! p = Some h -> path r = p -> mux_ServeHTTP m r = finish (h new_writer r).
Proof. intros Hm <-. unfold mux_ServeHTTP, mux_match. by rewrite Hm. Qed.

Lemma HTTPServer_Start_mux env s w :
  DefaultServeMux (HTTPServer_Start env s w).2 = DefaultServeMux w.
Proof.
  unfold HTTPServer_Start, bind, deref_HTTPServer, ListenAndServe, record_call.
  repeat (case_match; simplify_eq/=; try reflexivity).
Qed.

Lemma NewHTTPServer_mux addr w s w' :
  NewHTTPServer addr w = (Ret s, w') ->
  DefaultServeMux w' !! "/health" = Some HealthHandler.
Proof.
  unfold NewHTTPServer, bind, http_HandleFunc.
  repeat (case_match; simplify_eq/=); try discriminate.
  intros [= <- <-]. cbn. by rewrite lookup_insert_eq.
Qed.

(** C6. While the health listener is running (its [Start] is blocked in
    [ListenAndServe], serving the default mux that [NewHTTPServer] filled),
    every GET request to [/health] is answered with status 200 and an empty
    body. *)
Theorem health_route_ok (env : Env) (addr : string) (w w1 w2 : World)
    (s : loc) (r : Request) :
  NewHTTPServer addr w = (Ret s, w1) ->
  HTTPServer_Start env s w1 = (Block, w2) ->
  method r = "GET" ->
  path r = "/health" ->
  mux_ServeHTTP (DefaultServeMux w2) r = {| StatusCode := 200; Body := "" |}.
Proof.
  intros Hnew Hstart _ Hpath.
  pose proof (HTTPServer_Start_mux env s w1) as Hmux.
  rewrite Hstart in Hmux. cbn in Hmux.
  rewrite (mux_ServeHTTP_exact _ "/health" HealthHandler r); [reflexivity| |exact Hpath].
  rewrite Hmux. exact (NewHTTPServer_mux _ _ _ _ Hnew).
Qed.

Lemma health_route_ok_witness :
  mux_ServeHTTP
    (DefaultServeMux
       (HTTPServer_Start env_serving 0 (NewHTTPServer ":8081" world0).2).2)
    {| method := "GET"; path := "/health" |}
  = {| StatusCode := 200; Body := "" |}.
Proof.
  apply (health_route_ok env_serving ":8081" world0
           (NewHTTPServer ":8081" world0).2
           (HTTPServer_Start env_serving 0 (NewHTTPServer ":8081" world0).2).2
           0 {| method := "GET"; path := "/health" |}); reflexivity.
Defined.

Example other_route_not_found :
  mux_ServeHTTP
    (DefaultServeMux (NewHTTPServer ":8081" world0).2)
    {| method := "GET"; path := "/metrics" |}
  = {| StatusCode := 404; Body := "404 page not found" +:+ nl |}.
Proof. vm_compute. reflexivity. Qed.

(** ** The wait-group entry point: what each statement does *)

Lemma Start_run env w s addr :
  startable w s = true ->
  (address <$> objects w !! s) = Some addr ->
  exists w',
    Start env s w = (Start_outcome env addr, w') /\
    http_servers w' = http_servers w /\
    DefaultServeMux w' = DefaultServeMux w /\
    stdout w' = stdout w.
Proof.
  intros Hst Haddr.
  destruct (startable_inv _ _ Hst) as (this & g & Hs & Hg & Hserve & Hsvc).
  rewrite Hs in Haddr. injection Haddr as <-.
  rewrite (Start_unfold env w s this g Hs Hg Hserve Hsvc).
  unfold Start_outcome.
  destruct (net_Listen env "tcp" (address this)) as [lis [e|]].
  - eexists; split; [reflexivity|]. auto.
  - destruct lis as [l|].
    + destruct (grpc_Serve env l); eexists; (split; [reflexivity|]); auto.
    + eexists; split; [reflexivity|]. auto.
Qed.

Lemma NewGrpcServer_run addr w :
  exists s w',
    NewGrpcServer addr w = (Ret s, w') /\
    startable w' s = true /\
    (address <$> objects w' !! s) = Some addr /\
    http_servers w' = http_servers w /\
    DefaultServeMux w' = DefaultServeMux w /\
    stdout w' = stdout w.
Proof.
  eexists _, _. split; [apply NewGrpcServer_unfold|].
  split; [apply (NewGrpcServer_startable addr w), NewGrpcServer_unfold|].
  cbn. rewrite lookup_insert_eq. auto.
Qed.

Lemma NewHTTPServer_run addr w :
  DefaultServeMux w !! "/health" = None ->
  exists s w',
    NewHTTPServer addr w = (Ret s, w') /\
    (http_address <$> http_servers w' !! s) = Some addr /\
    objects w' = objects w /\
    grpc_servers w' = grpc_servers w /\
    stdout w' = stdout w.
Proof.
  intros Hmux. unfold NewHTTPServer, bind, http_HandleFunc.
  rewrite Hmux. cbn. eexists _, _. split; [reflexivity|].
  cbn. rewrite lookup_insert_eq. auto.
Qed.

Lemma HTTPServer_Start_run env w s addr :
  (http_address <$> http_servers w !! s) = Some addr ->
  exists w',
    HTTPServer_Start env s w = (HTTP_outcome env addr, w') /\
    objects w' = objects w /\
    grpc_servers w' = grpc_servers w /\
    stdout w' = stdout w.
Proof.
  intros Haddr. unfold HTTPServer_Start, bind, deref_HTTPServer, ListenAndServe,
    record_call, HTTP_outcome.
  destruct (http_servers w !! s) as [this|]; [|discriminate].
  injection Haddr as <-. cbn.
  destruct (http_ListenAndServe env (http_address this));
    eexists; (split; [reflexivity|]); auto.
Qed.

Lemma startable_frame w w' s :
  objects w' = objects w -> grpc_servers w' = grpc_servers w ->
  startable w' s = startable w s.
Proof. intros Ho Hg. unfold startable. by rewrite Ho, Hg. Qed.

Lemma grpc_fails_outcome env e :
  grpc_fails env e <-> Start_outcome env ":8080" = Ret (Some e).
Proof.
  unfold grpc_fails, bind_fails, serve_fails, Start_outcome.
  destruct (net_Listen env "tcp" ":8080") as [lis [e'|]]; cbn.
  - split.
    + intros [[= ->]|(l & [=] & _)]. reflexivity.
    + intros [= ->]. by left.
  - destruct lis as [l|].
    + split.
      * intros [[=]|(l' & [= <-] & ->)]. reflexivity.
      * intros H. right. exists l. split; [reflexivity|].
        destruct (grpc_Serve env l); by simplify_eq.
    + split; [intros [[=]|(l' & [=] & _)] | discriminate].
Qed.

Lemma http_fails_outcome env e :
  http_fails env e <-> HTTP_outcome env ":8081" = Ret (Some e).
Proof.
  unfold http_fails, HTTP_outcome.
  destruct (http_ListenAndServe env ":8081") as [r|]; split;
    intros H; by simplify_eq.
Qed.

Lemma Start_outcome_no_exit env addr c : Start_outcome env addr <> Exit c.
Proof.
  unfold Start_outcome.
  destruct (net_Listen env "tcp" addr) as [lis [e|]]; [discriminate|].
  destruct lis as [l|]; [|discriminate].
  destruct (grpc_Serve env l); discriminate.
Qed.

Lemma exec_app env s1 s2 st :
  host.exec env (s1 ++ s2) st = host.exec env s2 (host.exec env s1 st).
Proof. unfold host.exec. apply foldl_app. Qed.

(** ** The invariant of the wait-group entry point *)

Lemma init_inv env : host_inv env host.init.
Proof.
  unfold host_inv, count_inv, res_inv, proc_inv, wld_inv; cbn.
  repeat split; try done.
Qed.

Lemma signalled_range pc : (0 <= signalled pc <= 1)%Z.
Proof. destruct pc as [| | | | | | |[e|]]; cbn; lia. Qed.

Lemma main_step_inv env st st' :
  host_inv env st -> host.proc st = host.Running ->
  host.main_step st = Some st' -> host_inv env st'.
Proof.
  destruct st as [w n mpc gpc hpc p].
  unfold host_inv, count_inv, res_inv, proc_inv, wld_inv, host.main_step; cbn.
  intros (Hc & Hr & Hp) -> Hstep.
  pose proof (signalled_range gpc). pose proof (signalled_range hpc).
  destruct mpc; try case_decide; simplify_eq/=; destruct_and?; subst; cbn;
    repeat split; try done; try lia.
Qed.

Lemma elem_of_snoc_l {A} (l : list A) (x y : A) : x ∈ l -> x ∈ l ++ [y].
Proof. intros H. apply elem_of_app. by left. Qed.

Lemma elem_of_snoc_r {A} (l : list A) (x : A) : x ∈ l ++ [x].
Proof. apply elem_of_app. right. by apply list_elem_of_singleton. Qed.

Local Ltac host_unfold :=
  unfold host_inv, count_inv, res_inv, proc_inv, wld_inv, host.step,
    host.task_step, host.exec_go, host.startGrpcServer, host.startHTTPServer.

Local Ltac host_close :=
  repeat match goal with
         | |- _ /\ _ => split
         | |- True => exact I
         | |- forall _, _ => intro
         | H : None = Some _ |- _ => discriminate H
         | H : Some _ = Some _ |- _ => injection H as H; subst
         | |- _ ∈ _ ++ [_] => first [apply elem_of_snoc_r | apply elem_of_snoc_l]
         | |- _ <> _ => discriminate
         | |- exists m, _ = Panic m => eexists; eassumption
         end;
  try done; try lia; eauto.

Lemma grpc_step_inv env st st' :
  host_inv env st -> host.proc st = host.Running ->
  host.step env host.TGrpc st = Some st' -> host_inv env st'.
Proof.
  destruct st as [w n mpc gpc hpc p].
  host_unfold; cbn [host.world host.wg host.main_pc host.grpc_pc host.http_pc
                      host.proc host.greeting host.construct host.start].
  intros (Hc & (Hrg & Hrh & Hpg & Hph) & Hp) -> Hstep.
  destruct Hp as (Hgone & Hwg & Hwh).
  pose proof (signalled_range hpc) as Hsh.
  destruct gpc as [| | |s| |[e|]|e|r]; try discriminate.
  - (* fmt.Println("Starting server...") *)
    cbn in Hstep. injection Hstep as <-. cbn.
    destruct mpc; cbn in *; destruct_and?; host_close.
  - (* internal.NewGrpcServer(":8080") *)
    destruct (NewGrpcServer_run ":8080" w) as (s & w' & Hnew & Hst & Haddr & Hh & Hm & Hout).
    rewrite Hnew in Hstep. injection Hstep as <-. cbn.
    rewrite Hh, Hm, Hout.
    destruct mpc; cbn in *; destruct_and?; host_close.
  - (* server.Start() *)
    destruct Hwg as [Hst Haddr].
    destruct (Start_run env w s ":8080" Hst Haddr) as (w' & Hrun & Hh & Hm & Hout).
    rewrite Hrun in Hstep.
    destruct (Start_outcome env ":8080") as [r| |c|m] eqn:Ho.
    + injection Hstep as <-. cbn. rewrite Hh, Hm, Hout.
      destruct mpc; cbn in *; destruct_and?; host_close.
    + injection Hstep as <-. cbn. rewrite Hh, Hm, Hout.
      destruct mpc; cbn in *; destruct_and?; host_close.
    + by destruct (Start_outcome_no_exit env ":8080" c).
    + injection Hstep as <-. cbn. rewrite Hout.
      destruct mpc; cbn in *; destruct_and?; host_close.
  - (* if err != nil { fmt.Println(err) *)
    cbn in Hstep. injection Hstep as <-. cbn.
    pose proof (Hrg _ eq_refl) as Ho.
    destruct mpc; cbn in *; destruct_and?; host_close.
  - (* err == nil *)
    injection Hstep as <-. cbn.
    pose proof (Hrg _ eq_refl) as Ho.
    destruct mpc; cbn in *; destruct_and?; host_close.
  - (* wg.Done() *)
    pose proof (Hrg _ eq_refl) as Ho. pose proof (Hpg _ eq_refl) as Hpr.
    destruct (n - 1 <? 0)%Z eqn:Hneg.
    + apply Z.ltb_lt in Hneg.
      destruct mpc; cbn in *; destruct_and?; try discriminate; lia.
    + apply Z.ltb_ge in Hneg. injection Hstep as <-. cbn.
      destruct mpc; cbn in *; destruct_and?; host_close.
Qed.

Lemma grpc_wld_frame gpc w w' :
  objects w' = objects w -> grpc_servers w' = grpc_servers w ->
  match gpc with
  | host.AtStart s =>
      startable w s = true /\ (address <$> objects w !! s) = Some ":8080"
  | _ => True
  end ->
  match gpc with
  | host.AtStart s =>
      startable w' s = true /\ (address <$> objects w' !! s) = Some ":8080"
  | _ => True
  end.
Proof.
  intros Ho Hg. destruct gpc; try done.
  by rewrite (startable_frame w w' _ Ho Hg), Ho.
Qed.

Lemma http_step_inv env st st' :
  host_inv env st -> host.proc st = host.Running ->
  host.step env host.THttp st = Some st' -> host_inv env st'.
Proof.
  destruct st as [w n mpc gpc hpc p].
  host_unfold; cbn [host.world host.wg host.main_pc host.grpc_pc host.http_pc
                      host.proc host.greeting host.construct host.start].
  intros (Hc & (Hrg & Hrh & Hpg & Hph) & Hp) -> Hstep.
  destruct Hp as (Hgone & Hwg & Hwh).
  pose proof (signalled_range gpc) as Hsg.
  destruct hpc as [| | |s| |[e|]|e|r]; try discriminate.
  - (* fmt.Println("Starting HTTP server...") *)
    cbn in Hstep. injection Hstep as <-. cbn.
    destruct mpc; cbn in *; destruct_and?; host_close.
  - (* internal.NewHTTPServer(":8081") *)
    destruct (NewHTTPServer_run ":8081" w Hwh) as (s & w' & Hnew & Haddr & Ho & Hg & Hout).
    rewrite Hnew in Hstep. injection Hstep as <-. cbn.
    rewrite Hout. pose proof (grpc_wld_frame gpc w w' Ho Hg Hwg) as Hwg'.
    destruct mpc; cbn in *; destruct_and?; host_close.
  - (* httpServer.Start() *)
    destruct (HTTPServer_Start_run env w s ":8081" Hwh) as (w' & Hrun & Ho & Hg & Hout).
    rewrite Hrun in Hstep.
    pose proof (grpc_wld_frame gpc w w' Ho Hg Hwg) as Hwg'.
    unfold HTTP_outcome in *.
    destruct (http_ListenAndServe env ":8081") as [r|] eqn:Hls.
    + injection Hstep as <-. cbn. rewrite Hout.
      destruct mpc; cbn in *; destruct_and?; host_close.
    + injection Hstep as <-. cbn. rewrite Hout.
      destruct mpc; cbn in *; destruct_and?; host_close.
  - (* if err != nil { fmt.Println(err) *)
    cbn in Hstep. injection Hstep as <-. cbn.
    pose proof (Hrh _ eq_refl) as Ho.
    destruct mpc; cbn in *; destruct_and?; host_close.
  - (* err == nil *)
    injection Hstep as <-. cbn.
    pose proof (Hrh _ eq_refl) as Ho.
    destruct mpc; cbn in *; destruct_and?; host_close.
  - (* wg.Done() *)
    pose proof (Hrh _ eq_refl) as Ho. pose proof (Hph _ eq_refl) as Hpr.
    destruct (n - 1 <? 0)%Z eqn:Hneg.
    + apply Z.ltb_lt in Hneg.
      destruct mpc; cbn in *; destruct_and?; try discriminate; lia.
    + apply Z.ltb_ge in Hneg. injection Hstep as <-. cbn.
      destruct mpc; cbn in *; destruct_and?; host_close.
Qed.

Lemma step_inv env t st st' :
  host_inv env st -> host.step env t st = Some st' -> host_inv env st'.
Proof.
  intros Hinv Hstep.
  assert (Hrun : host.proc st = host.Running).
  { unfold host.step in Hstep. by destruct (host.proc st). }
  destruct t.
  - apply (main_step_inv env st st' Hinv Hrun).
    unfold host.step in Hstep. by rewrite Hrun in Hstep.
  - by apply (grpc_step_inv env st st').
  - by apply (http_step_inv env st st').
Qed.

Lemma exec_inv env sched st :
  host_inv env st -> host_inv env (host.exec env sched st).
Proof.
  revert st. induction sched as [|t sched IH]; intros st Hinv; [exact Hinv|].
  cbn. apply IH. destruct (host.step env t st) as [st'|] eqn:Hstep; cbn.
  - by apply (step_inv env t st st').
  - exact Hinv.
Qed.

Lemma reachable_inv env st : host.reachable env st -> host_inv env st.
Proof. intros [sched <-]. apply exec_inv, init_inv. Qed.

(** Both goroutines have signalled: both calls of [Start] returned an
    error, and both errors are on standard output. *)
Lemma both_signalled env st :
  host_inv env st ->
  signalled (host.grpc_pc st) = 1%Z -> signalled (host.http_pc st) = 1%Z ->
  exists e1 e2,
    host.grpc_pc st = host.Finished (Some e1) /\
    host.http_pc st = host.Finished (Some e2) /\
    grpc_fails env e1 /\ http_fails env e2 /\
    e1 +:+ nl ∈ stdout (host.world st) /\
    e2 +:+ nl ∈ stdout (host.world st).
Proof.
  intros (_ & (Hrg & Hrh & Hpg & Hph) & _) Hg Hh.
  destruct (host.grpc_pc st) as [| | | | | | |[e1|]]; try discriminate.
  destruct (host.http_pc st) as [| | | | | | |[e2|]]; try discriminate.
  exists e1, e2. repeat split.
  - apply grpc_fails_outcome, Hrg. reflexivity.
  - apply http_fails_outcome, Hrh. reflexivity.
  - by apply Hpg.
  - by apply Hph.
Qed.

Lemma wait_returned env st :
  host_inv env st ->
  host.main_pc st = host.AtExit \/ host.main_pc st = host.Gone ->
  signalled (host.grpc_pc st) = 1%Z /\ signalled (host.http_pc st) = 1%Z.
Proof.
  intros (Hc & _) Hpc. unfold count_inv in Hc.
  destruct Hpc as [Hpc|Hpc]; rewrite Hpc in Hc; tauto.
Qed.

Lemma exited_inv env st c :
  host_inv env st -> host.proc st = host.Exited c ->
  c = 1%Z /\ host.main_pc st = host.Gone.
Proof. intros (_ & _ & Hp) Hc. unfold proc_inv in Hp. by rewrite Hc in Hp. Qed.

(** ** Progress of the wait-group entry point *)

Lemma step_rank env t st st' :
  host_inv env st ->
  host.step env t st = Some st' -> host.proc st' = host.Running ->
  rank st' < rank st.
Proof.
  destruct st as [w n mpc gpc hpc p].
  unfold host_inv, count_inv, host.step, host.main_step, host.task_step,
    host.exec_go, rank; cbn.
  intros (Hc & _) Hstep Hrun.
  destruct p; try discriminate.
  destruct t.
  - destruct mpc; try case_decide; simplify_eq/=; destruct_and?; subst;
      cbn; lia.
  - destruct gpc as [| | |s| |[e|]|e|r]; try discriminate;
      repeat (case_match; simplify_eq/=); lia.
  - destruct hpc as [| | |s| |[e|]|e|r]; try discriminate;
      repeat (case_match; simplify_eq/=); lia.
Qed.

Lemma task_enabled code pc w n :
  0 < task_rank pc < 6 -> is_Some (host.task_step code pc w n).
Proof.
  destruct pc as [| | |s| |[e|]|e|r]; cbn; try lia; intros _;
    unfold host.task_step, host.exec_go;
    repeat case_match; eauto.
Qed.

(** A goroutine whose [Start] fails is either still on its way to
    [wg.Done()] or has signalled. *)
Lemma failing_task_cases pc (o : Outcome error) e :
  pc <> host.NotSpawned ->
  (forall o', result_of pc = Some o' -> o = o') ->
  o = Ret (Some e) ->
  0 < task_rank pc < 6 \/ pc = host.Finished (Some e).
Proof.
  intros Hns Hres ->.
  destruct pc as [| | |s| |r|e'|r]; cbn; try (left; lia); try done.
  - specialize (Hres _ eq_refl). discriminate.
  - specialize (Hres _ eq_refl). injection Hres as <-. by right.
Qed.

Lemma enabled env st e1 e2 :
  host_inv env st -> host.proc st = host.Running ->
  grpc_fails env e1 -> http_fails env e2 ->
  exists t st', host.step env t st = Some st'.
Proof.
  intros (Hc & (Hrg & Hrh & _) & Hp) Hrun Hg Hh.
  apply grpc_fails_outcome in Hg. apply http_fails_outcome in Hh.
  unfold proc_inv in Hp. rewrite Hrun in Hp. destruct Hp as [Hgone _].
  unfold count_inv in Hc.
  destruct (host.main_pc st) eqn:Hmpc; try done.
  1-3, 5: exists host.TMain; unfold host.step, host.main_step;
    rewrite Hrun, Hmpc; eauto.
  destruct Hc as (Hwg & Hgn & Hhn).
  destruct (failing_task_cases (host.grpc_pc st) _ e1 Hgn Hrg Hg) as [Hlive|Hgf].
  { exists host.TGrpc. unfold host.step. rewrite Hrun.
    destruct (task_enabled (host.startGrpcServer env) (host.grpc_pc st)
                (host.world st) (host.wg st) Hlive) as [[[[pc' w'] n'] p'] ->].
    eauto. }
  destruct (failing_task_cases (host.http_pc st) _ e2 Hhn Hrh Hh) as [Hlive|Hhf].
  { exists host.THttp. unfold host.step. rewrite Hrun.
    destruct (task_enabled (host.startHTTPServer env) (host.http_pc st)
                (host.world st) (host.wg st) Hlive) as [[[[pc' w'] n'] p'] ->].
    eauto. }
  exists host.TMain. unfold host.step, host.main_step.
  rewrite Hrun, Hmpc. rewrite Hgf, Hhf in Hwg. cbn in Hwg.
  rewrite decide_True by lia. eauto.
Qed.

Lemma not_crashed env st e m :
  host_inv env st -> grpc_fails env e -> host.proc st <> host.Crashed m.
Proof.
  intros (_ & _ & Hp) Hg Hcr. unfold proc_inv in Hp. rewrite Hcr in Hp.
  destruct Hp as [m' Hm']. apply grpc_fails_outcome in Hg. congruence.
Qed.

Lemma exit_reachable env e1 e2 :
  grpc_fails env e1 -> http_fails env e2 ->
  forall k st,
    rank st <= k -> host_inv env st ->
    exists sched, host.proc (host.exec env sched st) = host.Exited 1.
Proof.
  intros Hg Hh k. induction k as [|k IH]; intros st Hk Hinv.
  - destruct (host.proc st) as [|c|m] eqn:Hp.
    + destruct Hinv as (_ & _ & Hpi). unfold proc_inv in Hpi. rewrite Hp in Hpi.
      destruct Hpi as [Hgone _]. unfold rank in Hk.
      destruct (host.main_pc st); cbn in Hk; try lia. done.
    + exists []. cbn. rewrite Hp. f_equal. by apply (exited_inv env st c).
    + by destruct (not_crashed env st e1 m).
  - destruct (host.proc st) as [|c|m] eqn:Hp.
    + destruct (enabled env st e1 e2 Hinv Hp Hg Hh) as (t & st' & Hstep).
      pose proof (step_inv env t st st' Hinv Hstep) as Hinv'.
      destruct (host.proc st') as [|c|m] eqn:Hp'.
      * pose proof (step_rank env t st st' Hinv Hstep Hp') as Hlt.
        destruct (IH st' ltac:(lia) Hinv') as [sched Hex].
        exists (t :: sched). cbn. rewrite Hstep. exact Hex.
      * exists [t]. cbn. rewrite Hstep. cbn. rewrite Hp'. f_equal.
        by apply (exited_inv env st' c).
      * by destruct (not_crashed env st' e1 m).
    + exists []. cbn. rewrite Hp. f_equal. by apply (exited_inv env st c).
    + by destruct (not_crashed env st e1 m).
Qed.

(** ** The wait-group entry point: exit *)

Lemma exit_after_both env st c :
  host_inv env st -> host.proc st = host.Exited c ->
  c = 1%Z /\
  exists e1 e2,
    host.grpc_pc st = host.Finished (Some e1) /\
    host.http_pc st = host.Finished (Some e2) /\
    grpc_fails env e1 /\ http_fails env e2 /\
    e1 +:+ nl ∈ stdout (host.world st) /\
    e2 +:+ nl ∈ stdout (host.world st).
Proof.
  intros Hinv Hc. destruct (exited_inv env st c Hinv Hc) as [-> Hgone].
  split; [reflexivity|].
  destruct (wait_returned env st Hinv (or_intror Hgone)) as [Hg Hh].
  by apply both_signalled.
Qed.

(** C2, as the spec states it, fails: with the RPC bind failing and the
    health listener serving, the RPC goroutine prints its error and
    signals, and no schedule ever makes the process exit. *)
Lemma single_failure_not_fatal : ~ fatal_on_first_failure env_bind_fails.
Proof.
  intros Hfatal.
  destruct (Hfatal (host.exec env_bind_fails sched_grpc_first host.init))
    as (sched & c & Hex & _).
  - by exists sched_grpc_first.
  - left. by exists addr_in_use.
  - rewrite <- exec_app in Hex.
    assert (Hinv : host_inv env_bind_fails
                     (host.exec env_bind_fails (sched_grpc_first ++ sched) host.init))
      by apply exec_inv, init_inv.
    destruct (exit_after_both _ _ _ Hinv Hex) as (_ & e1 & e2 & _ & _ & _ & Hh & _).
    discriminate Hh.
Qed.

(** C2, amended. Each listener error is printed by its goroutine; the host
    exits, with status 1, only once both calls of [Start] have returned an
    error and both errors are printed; and when both listeners fail the
    exit is certain: the process never crashes or gets stuck, and every
    step brings it closer to [os.Exit(1)]. *)
Theorem host_exits_after_both_fail (env : Env) (st : host.State) :
  host.reachable env st ->
  (forall e,
     printed_err (host.grpc_pc st) = Some e \/
     printed_err (host.http_pc st) = Some e ->
     e +:+ nl ∈ stdout (host.world st)) /\
  (forall c,
     host.proc st = host.Exited c ->
     c = 1%Z /\
     exists e1 e2,
       grpc_fails env e1 /\ http_fails env e2 /\
       e1 +:+ nl ∈ stdout (host.world st) /\
       e2 +:+ nl ∈ stdout (host.world st)) /\
  (forall e1 e2,
     grpc_fails env e1 -> http_fails env e2 ->
     (exists sched, host.proc (host.exec env sched st) = host.Exited 1) /\
     (host.proc st = host.Running ->
      exists t st', host.step env t st = Some st') /\
     (forall t st',
        host.step env t st = Some st' ->
        host.proc st' = host.Exited 1 \/
        (host.proc st' = host.Running /\ rank st' < rank st))).
Proof.
  intros Hreach. pose proof (reachable_inv env st Hreach) as Hinv.
  split; [|split].
  - destruct Hinv as (_ & (_ & _ & Hpg & Hph) & _).
    intros e [H|H]; [by apply Hpg | by apply Hph].
  - intros c Hc.
    destruct (exit_after_both env st c Hinv Hc)
      as (-> & e1 & e2 & _ & _ & Hg & Hh & Hp1 & Hp2).
    split; [reflexivity|]. exists e1, e2. auto.
  - intros e1 e2 Hg Hh. split; [|split].
    + apply (exit_reachable env e1 e2 Hg Hh (rank st) st); [lia|exact Hinv].
    + intros Hrun. by apply (enabled env st e1 e2).
    + intros t st' Hstep.
      pose proof (step_inv env t st st' Hinv Hstep) as Hinv'.
      destruct (host.proc st') as [|c|m] eqn:Hp'.
      * right. split; [reflexivity|]. by apply (step_rank env t st st').
      * left. f_equal. by apply (exited_inv env st' c).
      * by destruct (not_crashed env st' e1 m).
Qed.

Lemma host_exits_after_both_fail_witness :
  host.proc (host.exec env_serve_fails sched_grpc_first host.init) = host.Exited 1 /\
  (forall c,
     host.proc (host.exec env_serve_fails sched_grpc_first host.init) = host.Exited c ->
     c = 1%Z /\
     exists e1 e2,
       grpc_fails env_serve_fails e1 /\ http_fails env_serve_fails e2 /\
       e1 +:+ nl
         ∈ stdout (host.world (host.exec env_serve_fails sched_grpc_first host.init)) /\
       e2 +:+ nl
         ∈ stdout (host.world (host.exec env_serve_fails sched_grpc_first host.init))).
Proof.
  split; [reflexivity|].
  apply (host_exits_after_both_fail env_serve_fails
           (host.exec env_serve_fails sched_grpc_first host.init)).
  by exists sched_grpc_first.
Defined.

(** ** The wait-group entry point: the counter *)

Lemma wg_after_add env : host.wg (host.exec env [host.TMain] host.init) = 2%Z.
Proof. reflexivity. Qed.

Lemma count_eq env st :
  host_inv env st -> host.main_pc st <> host.AtAdd ->
  host.wg st
  = (2 - signalled (host.grpc_pc st) - signalled (host.http_pc st))%Z.
Proof.
  intros (Hc & _) Hpc. unfold count_inv in Hc.
  destruct (host.main_pc st); try done; destruct_and?;
    repeat match goal with H : _ = host.NotSpawned |- _ => rewrite H end;
    cbn; lia.
Qed.

(** Only [wg.Done()] in a goroutine whose [Start] returned an error lowers
    the counter. *)
Lemma wg_decrease env t st st' :
  host_inv env st -> host.step env t st = Some st' ->
  (host.wg st' < host.wg st)%Z ->
  (t = host.TGrpc /\
   exists e, host.grpc_pc st = host.AtDone e /\ grpc_fails env e) \/
  (t = host.THttp /\
   exists e, host.http_pc st = host.AtDone e /\ http_fails env e).
Proof.
  destruct st as [w n mpc gpc hpc p].
  intros (_ & (Hrg & Hrh & _) & _). cbn in Hrg, Hrh.
  unfold host.step, host.main_step, host.task_step, host.exec_go; cbn.
  intros Hstep Hlt.
  destruct p; try discriminate.
  destruct t.
  - destruct mpc; try case_decide; simplify_eq/=; lia.
  - left. split; [reflexivity|].
    destruct gpc as [| | |s| |[e|]|e|r]; try discriminate;
      repeat case_match; simplify_eq/=; try lia.
    eexists. split; [reflexivity|]. apply grpc_fails_outcome, Hrg. reflexivity.
  - right. split; [reflexivity|].
    destruct hpc as [| | |s| |[e|]|e|r]; try discriminate;
      repeat case_match; simplify_eq/=; try lia.
    eexists. split; [reflexivity|]. apply http_fails_outcome, Hrh. reflexivity.
Qed.

(** C9. In the wait-group entry point the counter is set to 2, and only a
    goroutine whose [Start] returned an error lowers it; so [wg.Wait()]
    returns, and [main] reaches [os.Exit(1)], only when both listeners have
    failed, and when one of them does not fail the host waits for ever: in
    no reachable state has [main] passed [wg.Wait()] or the process
    exited. *)
Theorem host_waits_for_both (env : Env) (st : host.State) :
  host.reachable env st ->
  host.wg (host.exec env [host.TMain] host.init) = 2%Z /\
  (host.main_pc st <> host.AtAdd ->
   host.wg st
   = (2 - signalled (host.grpc_pc st) - signalled (host.http_pc st))%Z) /\
  (forall t st',
     host.step env t st = Some st' -> (host.wg st' < host.wg st)%Z ->
     (t = host.TGrpc /\
      exists e, host.grpc_pc st = host.AtDone e /\ grpc_fails env e) \/
     (t = host.THttp /\
      exists e, host.http_pc st = host.AtDone e /\ http_fails env e)) /\
  (host.main_pc st = host.AtExit \/ host.main_pc st = host.Gone \/
   (exists c, host.proc st = host.Exited c) ->
   exists e1 e2,
     grpc_fails env e1 /\ http_fails env e2 /\
     host.grpc_pc st = host.Finished (Some e1) /\
     host.http_pc st = host.Finished (Some e2)) /\
  ((forall e, ~ grpc_fails env e) \/ (forall e, ~ http_fails env e) ->
   host.main_pc st <> host.AtExit /\ host.main_pc st <> host.Gone /\
   forall c, host.proc st <> host.Exited c).
Proof.
  intros Hreach. pose proof (reachable_inv env st Hreach) as Hinv.
  assert (Hboth :
    host.main_pc st = host.AtExit \/ host.main_pc st = host.Gone \/
    (exists c, host.proc st = host.Exited c) ->
    exists e1 e2,
      grpc_fails env e1 /\ http_fails env e2 /\
      host.grpc_pc st = host.Finished (Some e1) /\
      host.http_pc st = host.Finished (Some e2)).
  { intros Hpast.
    assert (Hpc : host.main_pc st = host.AtExit \/ host.main_pc st = host.Gone).
    { destruct Hpast as [H|[H|[c Hc]]]; [by left|by right|].
      right. by apply (exited_inv env st c). }
    destruct (wait_returned env st Hinv Hpc) as [Hg Hh].
    destruct (both_signalled env st Hinv Hg Hh)
      as (e1 & e2 & Hg1 & Hh2 & Hf1 & Hf2 & _).
    exists e1, e2. auto. }
  split; [apply (wg_after_add env)|].
  split; [by apply (count_eq env)|].
  split; [intros t st'; by apply wg_decrease|].
  split; [exact Hboth|].
  intros Hone.
  assert (Hno : ~ (host.main_pc st = host.AtExit \/ host.main_pc st = host.Gone \/
                   (exists c, host.proc st = host.Exited c))).
  { intros Hpast. destruct (Hboth Hpast) as (e1 & e2 & Hf1 & Hf2 & _).
    destruct Hone as [Hn|Hn]; [exact (Hn e1 Hf1)|exact (Hn e2 Hf2)]. }
  split; [|split].
  - intros H. apply Hno. by left.
  - intros H. apply Hno. right. by left.
  - intros c H. apply Hno. right. right. by exists c.
Qed.

Lemma host_waits_for_both_witness :
  host.grpc_pc (host.exec env_bind_fails sched_grpc_first host.init)
  = host.Finished (Some addr_in_use) /\
  host.wg (host.exec env_bind_fails sched_grpc_first host.init) = 1%Z /\
  host.main_pc (host.exec env_bind_fails sched_grpc_first host.init) <> host.AtExit /\
  host.main_pc (host.exec env_bind_fails sched_grpc_first host.init) <> host.Gone /\
  forall c,
    host.proc (host.exec env_bind_fails sched_grpc_first host.init) <> host.Exited c.
Proof.
  split; [reflexivity|]. split; [reflexivity|].
  apply (host_waits_for_both env_bind_fails
           (host.exec env_bind_fails sched_grpc_first host.init)).
  - by exists sched_grpc_first.
  - right. intros e. discriminate.
Defined.

(** * Further properties of the package *)

(** ** Construction *)


Lemma NewGrpcServer_alloc addr w :
  exists s g w',
    NewGrpcServer addr w = (Ret s, w') /\
    objects w !! s = None /\
    grpc_servers w !! g = None /\
    objects w' !! s = Some {| address := addr; server := g |} /\
    grpc_servers w' !! g = Some {| services := ∅; serve := false |} /\
    (forall s0 v, objects w !! s0 = Some v -> objects w' !! s0 = Some v) /\
    (forall g0 v, grpc_servers w !! g0 = Some v -> grpc_servers w' !! g0 = Some v) /\
    stdout w' = stdout w /\ calls w' = calls w /\
    DefaultServeMux w' = DefaultServeMux w /\ http_servers w' = http_servers w.
Proof.
  eexists _, _, _. split; [apply NewGrpcServer_unfold|]. cbn.
  split; [apply fresh_lookup|]. split; [apply fresh_lookup|].
  rewrite !lookup_insert_eq. repeat split.
  - intros s0 v Hs0. rewrite lookup_insert_ne; [done|].
    intros <-. by rewrite fresh_lookup in Hs0.
  - intros g0 v Hg0. rewrite lookup_insert_ne; [done|].
    intros <-. by rewrite fresh_lookup in Hg0.
Qed.

(** X1. [NewGrpcServer] always returns, without any outside call or output:
    the new struct carries the given address and points to a new
    [grpc.Server] with no service registered and not serving; both
    addresses were free before, and every server that existed keeps its
    state. *)
Theorem NewGrpcServer_fresh (addr : string) (w : World) :
  exists s g w',
    NewGrpcServer addr w = (Ret s, w') /\
    objects w !! s = None /\
    grpc_servers w !! g = None /\
    objects w' !! s = Some {| address := addr; server := g |} /\
    grpc_servers w' !! g = Some {| services := ∅; serve := false |} /\
    (forall s0 v, objects w !! s0 = Some v -> objects w' !! s0 = Some v) /\
    (forall g0 v, grpc_servers w !! g0 = Some v -> grpc_servers w' !! g0 = Some v) /\
    stdout w' = stdout w /\ calls w' = calls w /\
    DefaultServeMux w' = DefaultServeMux w /\ http_servers w' = http_servers w.
Proof. exact (NewGrpcServer_alloc addr w). Qed.



(** ** Start, again *)

(** X3. [Start] cannot be called twice on one server: after a first call on
    a freshly constructed server, whatever its outcome (bind error, serve
    error, still serving), a second call ends the process with status 1 at
    the registration, before any bind, and changes nothing. *)
Theorem Start_twice_exits (env env' : Env) (w : World) (s : loc) :
  startable w s = true ->
  Start env' s (Start env s w).2 = (Exit 1, (Start env s w).2).
Proof.
  intros Hst.
  destruct (startable_inv _ _ Hst) as (this & g & Hs & Hg & Hserve & Hsvc).
  rewrite (Start_unfold env w s this g Hs Hg Hserve Hsvc).
  destruct (net_Listen env "tcp" (address this)) as [lis [e|]];
    [|destruct lis as [l|]; [destruct (grpc_Serve env l)|]];
    cbn [snd];
    unfold Start, bind, deref_GrpcServer, RegisterFrameServiceServer;
    cbn; rewrite Hs; cbn; rewrite lookup_insert_eq; cbn;
    rewrite ?lookup_insert_eq; reflexivity.
Qed.

Lemma Start_twice_exits_witness :
  Start env_serving 0 (Start env_bind_fails 0 world_new).2
  = (Exit 1, (Start env_bind_fails 0 world_new).2).
Proof.
  apply (Start_twice_exits env_bind_fails env_serving world_new 0).
  reflexivity.
Defined.

(** X4. In every world the outside calls of one [Start] are, in this order,
    at most: the registration, one [net.Listen] on "tcp" and the configured
    address, and one [Serve] on the listener that [net.Listen] returned
    with a nil error.  So [Start] never serves without a bound listener
    and never binds before the service is registered. *)
Theorem Start_call_order (env : Env) (w : World) (s : loc) :
  exists added,
    calls (Start env s w).2 = calls w ++ added /\
    (added = [] \/
     exists this,
       objects w !! s = Some this /\
       (added = [CallRegister (server this) s; CallListen "tcp" (address this)] \/
        exists l,
          net_Listen env "tcp" (address this) = (Some l, None) /\
          added = [CallRegister (server this) s;
                   CallListen "tcp" (address this);
                   CallServe (server this) l])).
Proof.
  unfold Start, bind, deref_GrpcServer, RegisterFrameServiceServer, Listen,
    record_call, ret, Serve.
  destruct (objects w !! s) as [this|] eqn:Hs;
    [|exists []; split; [by rewrite app_nil_r|by left]].
  destruct (grpc_servers w !! server this) as [g|] eqn:Hg;
    [|exists []; split; [by rewrite app_nil_r|by left]].
  destruct (serve g); [exists []; split; [by rewrite app_nil_r|by left]|].
  destruct (services g !! FrameService_name);
    [exists []; split; [by rewrite app_nil_r|by left]|].
  cbn. destruct (net_Listen env "tcp" (address this)) as [lis [e|]] eqn:Hl; cbn.
  - exists [CallRegister (server this) s; CallListen "tcp" (address this)].
    split; [by rewrite <- app_assoc|]. right. exists this. auto.
  - rewrite lookup_insert_eq. destruct lis as [l|].
    + exists [CallRegister (server this) s; CallListen "tcp" (address this);
              CallServe (server this) l].
      split.
      * destruct (grpc_Serve env l); cbn; by rewrite <- !app_assoc.
      * right. exists this. split; [done|]. right. by exists l.
    + exists [CallRegister (server this) s; CallListen "tcp" (address this)].
      cbn. split; [by rewrite <- app_assoc|]. right. exists this. auto.
Qed.

(** ** The README's first listing of the server *)

Lemma readme_Start_unfold env w s this g :
  objects w !! s = Some this ->
  grpc_servers w !! server this = Some g ->
  serve g = false ->
  services g !! FrameService_name = None ->
  readme.Start env s w =
    let '(lis, err) := net_Listen env "tcp" (address this) in
    match err with
    | Some e => (Ret (Some e), listening w s this g)
    | None =>
        match lis with
        | None => (Panic nil_deref, listening w s this g)
        | Some l =>
            match grpc_Serve env l with
            | None => (Block, serving w s this g l)
            | Some _ => (Ret None, serving w s this g l)
            end
        end
    end.
Proof.
  intros Hs Hg Hserve Hsvc.
  unfold readme.Start, bind, deref_GrpcServer, RegisterFrameServiceServer,
    Listen, record_call, ret.
  rewrite Hs, Hg, Hserve, Hsvc. cbn.
  destruct (net_Listen env "tcp" (address this)) as [lis [e|]]; cbn.
  - reflexivity.
  - unfold Serve. cbn. rewrite lookup_insert_eq.
    destruct lis as [l|]; [|reflexivity].
    unfold serving, listening, registered, set_calls, set_grpc_servers. cbn.
    rewrite insert_insert_eq.
    destruct (grpc_Serve env l); reflexivity.
Qed.

(** X5. The README's first listing of [Start] discards the result of
    [Serve]: on a freshly constructed server it does to the world what the
    repository's [Start] does, it returns a non-nil error exactly when the
    bind fails, and when the serve loop ends, with whatever error, it
    returns nil where the repository's [Start] returns that error. *)
Theorem readme_Start_drops_serve_error (env : Env) (w : World) (s : loc)
    (this : GrpcServer) :
  objects w !! s = Some this ->
  startable w s = true ->
  (readme.Start env s w).2 = (Start env s w).2 /\
  (forall e,
     (readme.Start env s w).1 = Ret (Some e) <-> bind_fails env (address this) e) /\
  (forall l r,
     net_Listen env "tcp" (address this) = (Some l, None) ->
     grpc_Serve env l = Some r ->
     (readme.Start env s w).1 = Ret None /\ (Start env s w).1 = Ret r).
Proof.
  intros Hs Hst.
  destruct (startable_inv _ _ Hst) as (this' & g & Hs' & Hg & Hserve & Hsvc).
  rewrite Hs in Hs'. injection Hs' as <-.
  rewrite (Start_unfold env w s this g Hs Hg Hserve Hsvc).
  rewrite (readme_Start_unfold env w s this g Hs Hg Hserve Hsvc).
  unfold bind_fails.
  destruct (net_Listen env "tcp" (address this)) as [lis [e'|]]; cbn.
  - split; [reflexivity|]. split.
    + intros e. split; intros H; by simplify_eq.
    + intros l r [=].
  - destruct lis as [l|].
    + split; [by destruct (grpc_Serve env l)|]. split.
      * intros e. split; [|discriminate].
        by destruct (grpc_Serve env l).
      * intros l' r [= <-] ->. done.
    + split; [reflexivity|]. split.
      * intros e. split; discriminate.
      * intros l r [=].
Qed.

Lemma readme_Start_drops_serve_error_witness :
  (readme.Start env_serve_fails 0 world_new).2
  = (Start env_serve_fails 0 world_new).2 /\
  (forall e,
     (readme.Start env_serve_fails 0 world_new).1 = Ret (Some e) <->
     bind_fails env_serve_fails ":8080" e) /\
  (forall l r,
     net_Listen env_serve_fails "tcp" ":8080" = (Some l, None) ->
     grpc_Serve env_serve_fails l = Some r ->
     (readme.Start env_serve_fails 0 world_new).1 = Ret None /\
     (Start env_serve_fails 0 world_new).1 = Ret r).
Proof.
  apply (readme_Start_drops_serve_error env_serve_fails world_new 0
           {| address := ":8080"; server := 0 |}); reflexivity.
Defined.

(** X6. The README's first listing of [GetFrame] does not echo: it answers
    every request, nil included, with the frame of id 1, so it agrees with
    the repository's [GetFrame] exactly on the requests whose id is 1. *)
Theorem readme_GetFrame_constant (s : loc) (ctx : Context)
    (req : option GetFrameRequest) (w : World) :
  readme.GetFrame s ctx req w = (Ret (Some {| Id := 1 |}, None), w) /\
  (readme.GetFrame s ctx req w = GetFrame s ctx req w <->
   req_Id <$> req = Some 1%Z).
Proof.
  split; [reflexivity|].
  destruct req as [[x]|]; cbn.
  - unfold readme.GetFrame, ret. split.
    + intros [= <-]. reflexivity.
    + intros [= ->]. reflexivity.
  - split; discriminate.
Qed.

(** ** The sequential entry points *)

Lemma Start_no_http_call env s w a :
  CallListenAndServe a ∈ calls (Start env s w).2 ->
  CallListenAndServe a ∈ calls w.
Proof.
  unfold Start, bind, deref_GrpcServer, RegisterFrameServiceServer, Listen,
    record_call, ret, Serve.
  repeat (case_match; simplify_eq/=; try done);
    rewrite ?elem_of_app, ?list_elem_of_singleton;
    intros Hin; repeat (destruct Hin as [Hin|Hin]; try done).
Qed.

(** The statements that [cmd.main] and [sequential.main] start with:
    the greeting, the constructor and [Start]. *)
Lemma start_prefix env w :
  exists s w1 w2,
    NewGrpcServer ":8080" (Println "Starting server..." w).2 = (Ret s, w1) /\
    Start env s w1 = (Start_outcome env ":8080", w2) /\
    stdout w2 = stdout w ++ ["Starting server..." +:+ nl] /\
    DefaultServeMux w2 = DefaultServeMux w /\
    http_servers w2 = http_servers w /\
    (forall a, CallListenAndServe a ∈ calls w2 -> CallListenAndServe a ∈ calls w).
Proof.
  destruct (NewGrpcServer_run ":8080" (Println "Starting server..." w).2)
    as (s & w1 & Hnew & Hst & Haddr & Hh1 & Hm1 & Ho1).
  destruct (Start_run env w1 s ":8080" Hst Haddr) as (w2 & Hrun & Hh2 & Hm2 & Ho2).
  exists s, w1, w2. split; [done|]. split; [done|].
  rewrite Ho2, Ho1, Hm2, Hm1, Hh2, Hh1. repeat split; try done.
  intros a Ha.
  assert (Hw2 : w2 = (Start env s w1).2) by (by rewrite Hrun).
  rewrite Hw2 in Ha. apply Start_no_http_call in Ha.
  assert (Hc1 : calls w1 = calls w).
  { rewrite NewGrpcServer_unfold in Hnew. by injection Hnew as _ <-. }
  by rewrite Hc1 in Ha.
Qed.

(** X7. What the minimal entry point does, for every environment: it exits
    with status 1 after printing the error when [Start] returns one, returns
    (status 0) when [Start] returns nil, and blocks while the server
    serves; it exits with status 1 only when the bind or the serve loop
    failed, and apart from the error it prints the greeting and nothing
    else. *)
Theorem cmd_main_outcome (env : Env) (w : World) :
  (cmd.main env w).1
  = match Start_outcome env ":8080" with
    | Ret (Some _) => Exit 1
    | Ret None => Ret tt
    | Block => Block
    | Exit c => Exit c
    | Panic m => Panic m
    end /\
  (exit_status (cmd.main env w).1 = Some 1%Z <-> exists e, grpc_fails env e) /\
  stdout (cmd.main env w).2
  = stdout w ++ ("Starting server..." +:+ nl)
      :: match Start_outcome env ":8080" with
         | Ret (Some e) => ["Error starting server: " +:+ e +:+ nl]
         | _ => []
         end.
Proof.
  destruct (start_prefix env w) as (s & w1 & w2 & Hnew & Hrun & Hout & _).
  pose proof (Start_outcome_no_exit env ":8080") as Hne.
  assert (Hiff : forall e, grpc_fails env e <-> Start_outcome env ":8080" = Ret (Some e))
    by apply grpc_fails_outcome.
  assert (Hmain : cmd.main env w =
    match Start_outcome env ":8080" with
    | Ret (Some e) =>
        (Exit 1,
         set_stdout (fun out => out ++ ["Error starting server: " +:+ e +:+ nl]) w2)
    | Ret None => (Ret tt, w2)
    | Block => (Block, w2)
    | Exit c => (Exit c, w2)
    | Panic m => (Panic m, w2)
    end).
  { unfold cmd.main.
    rewrite (bind_ret _ _ w tt (Println "Starting server..." w).2 eq_refl).
    rewrite (bind_ret _ _ _ _ _ Hnew).
    unfold bind at 1. rewrite Hrun.
    by destruct (Start_outcome env ":8080") as [[e|]| |c|m]. }
  rewrite Hmain.
  destruct (Start_outcome env ":8080") as [[e|]| |c|m]; cbn; rewrite Hout.
  - split; [done|]. split; [|by rewrite <- app_assoc].
    split; [intros _; exists e; by apply Hiff|done].
  - split; [done|]. split; [|done].
    split; [discriminate|]. intros [e He]. apply Hiff in He. discriminate.
  - split; [done|]. split; [|done].
    split; [discriminate|]. intros [e He]. apply Hiff in He. discriminate.
  - by destruct (Hne c).
  - split; [done|]. split; [|done].
    split; [discriminate|]. intros [e He]. apply Hiff in He. discriminate.
Qed.

Lemma HTTPServer_Start_calls env w s addr :
  (http_address <$> http_servers w !! s) = Some addr ->
  calls (HTTPServer_Start env s w).2 = calls w ++ [CallListenAndServe addr] /\
  (HTTPServer_Start env s w).1 = HTTP_outcome env addr /\
  stdout (HTTPServer_Start env s w).2 = stdout w.
Proof.
  intros Haddr. unfold HTTPServer_Start, bind, deref_HTTPServer, ListenAndServe,
    record_call, HTTP_outcome.
  destruct (http_servers w !! s) as [this|]; [|discriminate].
  injection Haddr as <-. cbn.
  by destruct (http_ListenAndServe env (http_address this)).
Qed.

(** X8. In the entry point that starts the two servers one after the other,
    the HTTP server is never started while the RPC server serves: [main]
    blocks having printed only the first greeting, the health route is not
    registered and [ListenAndServe] is not called. *)
Theorem sequential_http_never_started (env : Env) (w : World) :
  Start_outcome env ":8080" = Block ->
  exists w',
    sequential.main env w = (Block, w') /\
    stdout w' = stdout w ++ ["Starting server..." +:+ nl] /\
    DefaultServeMux w' = DefaultServeMux w /\
    http_servers w' = http_servers w /\
    (forall a, CallListenAndServe a ∈ calls w' -> CallListenAndServe a ∈ calls w).
Proof.
  intros Hblock.
  destruct (start_prefix env w) as (s & w1 & w2 & Hnew & Hrun & Hout & Hm & Hh & Hc).
  exists w2. split; [|done].
  unfold sequential.main.
  rewrite (bind_ret _ _ w tt (Println "Starting server..." w).2 eq_refl).
  rewrite (bind_ret _ _ _ _ _ Hnew).
  unfold bind at 1. rewrite Hrun, Hblock. reflexivity.
Qed.

Lemma sequential_http_never_started_witness :
  exists w',
    sequential.main env_serving world0 = (Block, w') /\
    stdout w' = stdout world0 ++ ["Starting server..." +:+ nl] /\
    DefaultServeMux w' = DefaultServeMux world0 /\
    http_servers w' = http_servers world0 /\
    (forall a, CallListenAndServe a ∈ calls w' ->
               CallListenAndServe a ∈ calls world0).
Proof.
  apply (sequential_http_never_started env_serving world0). reflexivity.
Defined.

(** X9. The sequential entry point reaches the HTTP server exactly when the
    RPC server's [Start] has returned nil: started from a process that has
    not touched the health route, [ListenAndServe] on ":8081" is called if
    and only if [Start] returned without error; after an RPC error the
    process exits with status 1 instead. *)
Theorem sequential_http_iff (env : Env) (w : World) :
  DefaultServeMux w !! "/health" = None ->
  CallListenAndServe ":8081" ∉ calls w ->
  (CallListenAndServe ":8081" ∈ calls (sequential.main env w).2 <->
   Start_outcome env ":8080" = Ret None) /\
  (forall e, grpc_fails env e -> (sequential.main env w).1 = Exit 1).
Proof.
  intros Hmux Hno.
  destruct (start_prefix env w) as (s & w1 & w2 & Hnew & Hrun & Hout & Hm & Hh & Hc).
  assert (Hiff : forall e, grpc_fails env e <-> Start_outcome env ":8080" = Ret (Some e))
    by apply grpc_fails_outcome.
  pose proof (Start_outcome_no_exit env ":8080") as Hne.
  remember (sequential.main env w) as R eqn:HR.
  unfold sequential.main in HR.
  rewrite (bind_ret _ _ w tt (Println "Starting server..." w).2 eq_refl) in HR.
  rewrite (bind_ret _ _ _ _ _ Hnew) in HR.
  unfold bind at 1 in HR. rewrite Hrun in HR.
  destruct (Start_outcome env ":8080") as [[e|]| |c|m] eqn:Ho.
  - cbn in HR. subst R. cbn. split; [|done].
    split; [|discriminate]. intros H. exfalso. apply Hno, Hc, H.
  - split; [|intros e He; apply Hiff in He; discriminate].
    split; [done|]. intros _.
    unfold bind at 1 in HR. cbn [ret] in HR.
    rewrite (bind_ret _ _ w2 tt (Println "Starting HTTP server..." w2).2 eq_refl)
      in HR.
    destruct (NewHTTPServer_run ":8081" (Println "Starting HTTP server..." w2).2)
      as (hs & w3 & Hnew3 & Haddr3 & _); [cbn; by rewrite Hm|].
    rewrite (bind_ret _ _ _ _ _ Hnew3) in HR.
    destruct (HTTPServer_Start_calls env w3 hs ":8081" Haddr3) as (Hcalls & _).
    unfold bind at 1 in HR.
    destruct (HTTPServer_Start env hs w3) as [o w4] eqn:Hs4. cbn in Hcalls.
    assert (Hin : CallListenAndServe ":8081" ∈ calls w4)
      by (rewrite Hcalls; apply elem_of_snoc_r).
    destruct o as [[e|]| |c|m]; cbn in HR; subst R; cbn; done.
  - split; [|intros e He; apply Hiff in He; discriminate].
    cbn in HR. subst R. cbn. split; [|discriminate].
    intros H. exfalso. apply Hno, Hc, H.
  - by destruct (Hne c).
  - split; [|intros e He; apply Hiff in He; discriminate].
    cbn in HR. subst R. cbn. split; [|discriminate].
    intros H. exfalso. apply Hno, Hc, H.
Qed.

Lemma sequential_http_iff_witness :
  (CallListenAndServe ":8081" ∈ calls (sequential.main env_bind_fails world0).2 <->
   Start_outcome env_bind_fails ":8080" = Ret None) /\
  (forall e, grpc_fails env_bind_fails e ->
             (sequential.main env_bind_fails world0).1 = Exit 1).
Proof.
  apply (sequential_http_iff env_bind_fails world0).
  - reflexivity.
  - cbn. apply not_elem_of_nil.
Defined.

(** ** The health server *)

Lemma Start_mux env s w : DefaultServeMux (Start env s w).2 = DefaultServeMux w.
Proof.
  unfold Start, bind, deref_GrpcServer, RegisterFrameServiceServer, Listen,
    record_call, ret, Serve.
  repeat (case_match; simplify_eq/=; try reflexivity).
Qed.

Lemma NewHTTPServer_registered addr w h :
  DefaultServeMux w !! "/health" = Some h ->
  NewHTTPServer addr w = (Panic "http: multiple registrations for /health", w).
Proof.
  intros Hm. unfold NewHTTPServer, bind, http_HandleFunc. cbn. by rewrite Hm.
Qed.

Lemma run_op_health env o w h :
  DefaultServeMux w !! "/health" = Some h ->
  DefaultServeMux (run_op env o w) !! "/health" = Some h.
Proof.
  intros Hm. destruct o as [addr|s'|s' ctx req|addr|s']; unfold run_op.
  - by rewrite NewGrpcServer_unfold.
  - by rewrite Start_mux.
  - by rewrite GetFrame_world.
  - by rewrite (NewHTTPServer_registered addr w h Hm).
  - by rewrite HTTPServer_Start_mux.
Qed.

Lemma run_ops_health env ops w h :
  DefaultServeMux w !! "/health" = Some h ->
  DefaultServeMux (run_ops env ops w) !! "/health" = Some h.
Proof.
  revert w. induction ops as [|o ops IH]; intros w Hm; [exact Hm|].
  cbn. apply IH, run_op_health, Hm.
Qed.

(** X10. Once [NewHTTPServer] has returned, the health route stays
    registered through every later operation of the package, and a request
    to [/health] is answered with status 200 and an empty body whatever its
    method. *)
Theorem health_route_persists (env : Env) (addr : string) (w w1 : World)
    (s : loc) (ops : list Op) (r : Request) :
  NewHTTPServer addr w = (Ret s, w1) ->
  path r = "/health" ->
  mux_ServeHTTP (DefaultServeMux (run_ops env ops w1)) r
  = {| StatusCode := 200; Body := "" |}.
Proof.
  intros Hnew Hpath.
  rewrite (mux_ServeHTTP_exact _ "/health" HealthHandler r);
    [reflexivity| |exact Hpath].
  apply run_ops_health. exact (NewHTTPServer_mux _ _ _ _ Hnew).
Qed.

Lemma health_route_persists_witness :
  mux_ServeHTTP
    (DefaultServeMux
       (run_ops env_serve_fails
          [OpHTTPStart 0; OpNewGrpcServer ":8080"; OpStart 0;
           OpNewHTTPServer ":8082"]
          (NewHTTPServer ":8081" world0).2))
    {| method := "POST"; path := "/health" |}
  = {| StatusCode := 200; Body := "" |}.
Proof.
  apply (health_route_persists env_serve_fails ":8081" world0
           (NewHTTPServer ":8081" world0).2 0); reflexivity.
Defined.



(** X12. [NewHTTPServer] registers its route on the process-wide mux, so it
    can be called once: a second call, with any address, panics on the
    duplicate registration and allocates nothing. *)
Theorem NewHTTPServer_twice_panics (a1 a2 : string) (w w1 : World) (s : loc) :
  NewHTTPServer a1 w = (Ret s, w1) ->
  NewHTTPServer a2 w1
  = (Panic "http: multiple registrations for /health", w1).
Proof.
  intros Hnew.
  apply (NewHTTPServer_registered a2 w1 HealthHandler).
  exact (NewHTTPServer_mux _ _ _ _ Hnew).
Qed.

Lemma NewHTTPServer_twice_panics_witness :
  NewHTTPServer ":8082" (NewHTTPServer ":8081" world0).2
  = (Panic "http: multiple registrations for /health",
     (NewHTTPServer ":8081" world0).2).
Proof.
  apply (NewHTTPServer_twice_panics ":8081" ":8082" world0
           (NewHTTPServer ":8081" world0).2 0).
  reflexivity.
Defined.

(** ** The wait-group entry point, again *)

Lemma Start_outcome_panic env addr m :
  Start_outcome env addr = Panic m -> net_Listen env "tcp" addr = (None, None).
Proof.
  unfold Start_outcome.
  destruct (net_Listen env "tcp" addr) as [[l|] [e|]]; try discriminate.
  - by destruct (grpc_Serve env l).
  - reflexivity.
Qed.

(** X13. In every reachable state of the wait-group entry point the counter
    is between 0 and 2, so [wg.Done()] never drives it negative; the
    process panics only if [net.Listen] hands back neither a listener nor
    an error, and in particular the single registration of the health
    route never panics. *)
Theorem host_counter_bounds (env : Env) (st : host.State) :
  host.reachable env st ->
  (0 <= host.wg st <= 2)%Z /\
  (forall m, host.proc st = host.Crashed m ->
             net_Listen env "tcp" ":8080" = (None, None)).
Proof.
  intros Hreach. pose proof (reachable_inv env st Hreach) as (Hc & _ & Hp).
  split.
  - unfold count_inv in Hc.
    pose proof (signalled_range (host.grpc_pc st)).
    pose proof (signalled_range (host.http_pc st)).
    destruct (host.main_pc st); destruct_and?; lia.
  - intros m Hm. unfold proc_inv in Hp. rewrite Hm in Hp.
    destruct Hp as [m' Hm']. by apply (Start_outcome_panic env ":8080" m').
Qed.

Lemma host_counter_bounds_witness :
  (0 <= host.wg (host.exec env_serve_fails sched_grpc_first host.init) <= 2)%Z /\
  (forall m,
     host.proc (host.exec env_serve_fails sched_grpc_first host.init)
     = host.Crashed m ->
     net_Listen env_serve_fails "tcp" ":8080" = (None, None)).
Proof.
  apply (host_counter_bounds env_serve_fails
           (host.exec env_serve_fails sched_grpc_first host.init)).
  by exists sched_grpc_first.
Defined.

(** X14. In the wait-group entry point the health listener starts whatever
    the RPC goroutine is doing, blocked in its serve loop included: from
    every reachable state in which the HTTP goroutine has just been
    spawned, its next three steps call [ListenAndServe] on ":8081" and
    leave the RPC goroutine where it was. *)
Theorem host_http_starts_regardless (env : Env) (st : host.State) :
  host.reachable env st ->
  host.proc st = host.Running ->
  host.http_pc st = host.AtPrintln ->
  CallListenAndServe ":8081"
    ∈ calls (host.world (host.exec env [host.THttp; host.THttp; host.THttp] st)) /\
  host.grpc_pc (host.exec env [host.THttp; host.THttp; host.THttp] st)
  = host.grpc_pc st /\
  host.proc (host.exec env [host.THttp; host.THttp; host.THttp] st)
  = host.Running /\
  result_of (host.http_pc (host.exec env [host.THttp; host.THttp; host.THttp] st))
  = Some (HTTP_outcome env ":8081").
Proof.
  intros Hreach Hrun Hpc.
  pose proof (reachable_inv env st Hreach) as (_ & _ & Hp).
  unfold proc_inv in Hp. rewrite Hrun in Hp. destruct Hp as (_ & _ & Hwh).
  rewrite Hpc in Hwh.
  destruct st as [w n mpc gpc hpc p]. cbn in *. subst p hpc.
  unfold host.exec. cbn [foldl].
  (* fmt.Println("Starting HTTP server...") *)
  unfold host.step at 3. cbn.
  (* internal.NewHTTPServer(":8081") *)
  destruct (NewHTTPServer_run ":8081"
              (set_stdout (fun out => out ++ ["Starting HTTP server..." +:+ nl]) w))
    as (s & w3 & Hnew & Haddr & _); [exact Hwh|].
  unfold host.step at 2. cbn. unfold host.exec_go. rewrite Hnew. cbn.
  (* httpServer.Start() *)
  destruct (HTTPServer_Start_calls env w3 s ":8081" Haddr) as (Hcalls & Hout & _).
  unfold host.step. cbn. unfold host.exec_go.
  destruct (HTTPServer_Start env s w3) as [o w4]. cbn in Hcalls, Hout. subst o.
  unfold HTTP_outcome.
  destruct (http_ListenAndServe env ":8081") as [r|]; cbn;
    rewrite Hcalls; (split; [apply elem_of_snoc_r|done]).
Qed.

Lemma host_http_starts_regardless_witness :
  host.grpc_pc
    (host.exec env_serving
       [host.TMain; host.TMain; host.TGrpc; host.TGrpc; host.TGrpc; host.TMain]
       host.init) = host.InStart /\
  CallListenAndServe ":8081"
    ∈ calls (host.world
               (host.exec env_serving [host.THttp; host.THttp; host.THttp]
                  (host.exec env_serving
                     [host.TMain; host.TMain; host.TGrpc; host.TGrpc;
                      host.TGrpc; host.TMain] host.init))).
Proof.
  split; [reflexivity|].
  apply (host_http_starts_regardless env_serving
           (host.exec env_serving
              [host.TMain; host.TMain; host.TGrpc; host.TGrpc; host.TGrpc;
               host.TMain] host.init)).
  - by eexists.
  - reflexivity.
  - reflexivity.
Defined.

(** ** The entry point that does not wait *)

Local Ltac nowait_unfold :=
  unfold nowait.inv, nowait.spawn_inv, nowait.res_inv, nowait.proc_inv,
    nowait.wld_inv, nowait.step, nowait.task_step, nowait.exec_go,
    host.startGrpcServer, host.startHTTPServer.

Lemma nowait_init_inv env : nowait.inv env nowait.init.
Proof. nowait_unfold; cbn. repeat split; try done. Qed.

Lemma nowait_main_step_inv env st st' :
  nowait.inv env st -> nowait.proc st = host.Running ->
  nowait.main_step st = Some st' -> nowait.inv env st'.
Proof.
  destruct st as [w mpc gpc hpc p].
  nowait_unfold; unfold nowait.main_step; cbn.
  intros (Hs & Hr & Hp) -> Hstep.
  destruct mpc; simplify_eq/=; destruct_and?; subst; cbn in *; host_close.
Qed.

Lemma nowait_grpc_wld_frame gpc w w' :
  objects w' = objects w -> grpc_servers w' = grpc_servers w ->
  match gpc with
  | nowait.AtStart s =>
      startable w s = true /\ (address <$> objects w !! s) = Some ":8080"
  | _ => True
  end ->
  match gpc with
  | nowait.AtStart s =>
      startable w' s = true /\ (address <$> objects w' !! s) = Some ":8080"
  | _ => True
  end.
Proof.
  intros Ho Hg. destruct gpc; try done.
  by rewrite (startable_frame w w' _ Ho Hg), Ho.
Qed.

Lemma nowait_grpc_step_inv env st st' :
  nowait.inv env st -> nowait.proc st = host.Running ->
  nowait.step env host.TGrpc st = Some st' -> nowait.inv env st'.
Proof.
  destruct st as [w mpc gpc hpc p].
  nowait_unfold; cbn [nowait.world nowait.main_pc nowait.grpc_pc nowait.http_pc
                        nowait.proc host.greeting host.construct host.start].
  intros (Hsp & (Hrg & Hrh & Hpg & Hph) & Hp) -> Hstep.
  destruct Hp as (Hgone & Hwg & Hwh).
  destruct gpc as [| | |s| |[e|]|e|]; try discriminate.
  - (* fmt.Println("Starting server...") *)
    cbn in Hstep. injection Hstep as <-. cbn.
    destruct mpc; cbn in *; destruct_and?; host_close.
  - (* internal.NewGrpcServer(":8080") *)
    destruct (NewGrpcServer_run ":8080" w)
      as (s & w' & Hnew & Hst & Haddr & Hh & Hm & Hout).
    rewrite Hnew in Hstep. injection Hstep as <-. cbn.
    rewrite Hh, Hm, Hout.
    destruct mpc; cbn in *; destruct_and?; host_close.
  - (* server.Start() *)
    destruct Hwg as [Hst Haddr].
    destruct (Start_run env w s ":8080" Hst Haddr) as (w' & Hrun & Hh & Hm & Hout).
    rewrite Hrun in Hstep.
    destruct (Start_outcome env ":8080") as [r| |c|m] eqn:Ho.
    + injection Hstep as <-. cbn. rewrite Hh, Hm, Hout.
      destruct mpc; cbn in *; destruct_and?; host_close.
    + injection Hstep as <-. cbn. rewrite Hh, Hm, Hout.
      destruct mpc; cbn in *; destruct_and?; host_close.
    + by destruct (Start_outcome_no_exit env ":8080" c).
    + injection Hstep as <-. cbn. rewrite Hout.
      destruct mpc; cbn in *; destruct_and?; host_close.
  - (* if err != nil { fmt.Println(err) *)
    cbn in Hstep. injection Hstep as <-. cbn.
    pose proof (Hrg _ eq_refl) as Ho.
    destruct mpc; cbn in *; destruct_and?; host_close.
  - (* err == nil *)
    injection Hstep as <-. cbn.
    pose proof (Hrg _ eq_refl) as Ho.
    destruct mpc; cbn in *; destruct_and?; host_close.
  - (* os.Exit(1) *)
    injection Hstep as <-. cbn.
    pose proof (Hrg _ eq_refl) as Ho. pose proof (Hpg _ eq_refl) as Hpr.
    destruct mpc; cbn in *; destruct_and?; try discriminate;
      (split; [done|]); (split; [host_close|]);
      right; (split; [done|]); (split; [done|]); left; by eexists.
Qed.

Lemma nowait_http_step_inv env st st' :
  nowait.inv env st -> nowait.proc st = host.Running ->
  nowait.step env host.THttp st = Some st' -> nowait.inv env st'.
Proof.
  destruct st as [w mpc gpc hpc p].
  nowait_unfold; cbn [nowait.world nowait.main_pc nowait.grpc_pc nowait.http_pc
                        nowait.proc host.greeting host.construct host.start].
  intros (Hsp & (Hrg & Hrh & Hpg & Hph) & Hp) -> Hstep.
  destruct Hp as (Hgone & Hwg & Hwh).
  destruct hpc as [| | |s| |[e|]|e|]; try discriminate.
  - (* fmt.Println("Starting HTTP server...") *)
    cbn in Hstep. injection Hstep as <-. cbn.
    destruct mpc; cbn in *; destruct_and?; host_close.
  - (* internal.NewHTTPServer(":8081") *)
    destruct (NewHTTPServer_run ":8081" w Hwh)
      as (s & w' & Hnew & Haddr & Ho & Hg & Hout).
    rewrite Hnew in Hstep. injection Hstep as <-. cbn.
    rewrite Hout. pose proof (nowait_grpc_wld_frame gpc w w' Ho Hg Hwg) as Hwg'.
    destruct mpc; cbn in *; destruct_and?; host_close.
  - (* httpServer.Start() *)
    destruct (HTTPServer_Start_run env w s ":8081" Hwh)
      as (w' & Hrun & Ho & Hg & Hout).
    rewrite Hrun in Hstep.
    pose proof (nowait_grpc_wld_frame gpc w w' Ho Hg Hwg) as Hwg'.
    unfold HTTP_outcome in *.
    destruct (http_ListenAndServe env ":8081") as [r|] eqn:Hls.
    + injection Hstep as <-. cbn. rewrite Hout.
      destruct mpc; cbn in *; destruct_and?; host_close.
    + injection Hstep as <-. cbn. rewrite Hout.
      destruct mpc; cbn in *; destruct_and?; host_close.
  - (* if err != nil { fmt.Println(err) *)
    cbn in Hstep. injection Hstep as <-. cbn.
    pose proof (Hrh _ eq_refl) as Ho.
    destruct mpc; cbn in *; destruct_and?; host_close.
  - (* err == nil *)
    injection Hstep as <-. cbn.
    pose proof (Hrh _ eq_refl) as Ho.
    destruct mpc; cbn in *; destruct_and?; host_close.
  - (* os.Exit(1) *)
    injection Hstep as <-. cbn.
    pose proof (Hrh _ eq_refl) as Ho. pose proof (Hph _ eq_refl) as Hpr.
    destruct mpc; cbn in *; destruct_and?; try discriminate;
      (split; [done|]); (split; [host_close|]);
      right; (split; [done|]); (split; [done|]); right; by eexists.
Qed.

Lemma nowait_step_inv env t st st' :
  nowait.inv env st -> nowait.step env t st = Some st' -> nowait.inv env st'.
Proof.
  intros Hinv Hstep.
  assert (Hrun : nowait.proc st = host.Running).
  { unfold nowait.step in Hstep. by destruct (nowait.proc st). }
  destruct t.
  - apply (nowait_main_step_inv env st st' Hinv Hrun).
    unfold nowait.step in Hstep. by rewrite Hrun in Hstep.
  - by apply (nowait_grpc_step_inv env st st').
  - by apply (nowait_http_step_inv env st st').
Qed.

Lemma nowait_exec_inv env sched st :
  nowait.inv env st -> nowait.inv env (nowait.exec env sched st).
Proof.
  revert st. induction sched as [|t sched IH]; intros st Hinv; [exact Hinv|].
  cbn. apply IH. destruct (nowait.step env t st) as [st'|] eqn:Hstep; cbn.
  - by apply (nowait_step_inv env t st st').
  - exact Hinv.
Qed.

Lemma nowait_reachable_inv env st : nowait.reachable env st -> nowait.inv env st.
Proof. intros [sched <-]. apply nowait_exec_inv, nowait_init_inv. Qed.

(** X15. The entry point without a wait group does not wait for its
    listeners: from every reachable state in which the process is alive,
    whatever the goroutines are doing, the steps of [main] alone end the
    process with status 0 and leave the world as it is.  Scheduled first,
    [main] ends the process before anything is printed or bound. *)
Theorem nowait_main_returns_at_once (env : Env) (st : nowait.State) :
  nowait.reachable env st ->
  nowait.proc st = host.Running ->
  nowait.proc (nowait.exec env [host.TMain; host.TMain; host.TMain] st)
  = host.Exited 0 /\
  nowait.world (nowait.exec env [host.TMain; host.TMain; host.TMain] st)
  = nowait.world st.
Proof.
  intros Hreach Hrun.
  pose proof (nowait_reachable_inv env st Hreach) as (_ & _ & Hp).
  unfold nowait.proc_inv in Hp. rewrite Hrun in Hp. destruct Hp as [Hgone _].
  destruct st as [w mpc gpc hpc p]. cbn in *. subst p.
  destruct mpc; try done; cbn; done.
Qed.

Lemma nowait_main_returns_at_once_witness :
  nowait.proc (nowait.exec env_serve_fails [host.TMain; host.TMain; host.TMain]
                 nowait.init) = host.Exited 0 /\
  nowait.world (nowait.exec env_serve_fails [host.TMain; host.TMain; host.TMain]
                  nowait.init) = world0.
Proof.
  apply (nowait_main_returns_at_once env_serve_fails nowait.init).
  - by exists [].
  - reflexivity.
Defined.

(** X16. The exit status of the entry point without a wait group is 0 or
    1: it is 0 when [main] has returned, and it is 1 only when a listener's
    [Start] has returned an error, which that goroutine has printed before
    calling [os.Exit(1)]. *)
Theorem nowait_exit_status (env : Env) (st : nowait.State) (c : Z) :
  nowait.reachable env st ->
  nowait.proc st = host.Exited c ->
  (c = 0%Z /\ nowait.main_pc st = nowait.Gone) \/
  (c = 1%Z /\
   exists e,
     (grpc_fails env e \/ http_fails env e) /\
     e +:+ nl ∈ stdout (nowait.world st)).
Proof.
  intros Hreach Hc.
  pose proof (nowait_reachable_inv env st Hreach)
    as (_ & (Hrg & Hrh & Hpg & Hph) & Hp).
  unfold nowait.proc_inv in Hp. rewrite Hc in Hp.
  destruct Hp as [[-> Hgone]|(-> & _ & [[e He]|[e He]])]; [by left| |]; right;
    (split; [reflexivity|]); exists e.
  - split; [|by apply Hpg]. left. apply grpc_fails_outcome, Hrg.
    destruct (nowait.grpc_pc st); by simplify_eq/=.
  - split; [|by apply Hph]. right. apply http_fails_outcome, Hrh.
    destruct (nowait.http_pc st); by simplify_eq/=.
Qed.

Lemma nowait_exit_status_witness :
  (1%Z = 0%Z /\
   nowait.main_pc
     (nowait.exec env_bind_fails
        [host.TMain; host.TGrpc; host.TGrpc; host.TGrpc; host.TGrpc; host.TGrpc]
        nowait.init) = nowait.Gone) \/
  (1%Z = 1%Z /\
   exists e,
     (grpc_fails env_bind_fails e \/ http_fails env_bind_fails e) /\
     e +:+ nl
       ∈ stdout
           (nowait.world
              (nowait.exec env_bind_fails
                 [host.TMain; host.TGrpc; host.TGrpc; host.TGrpc; host.TGrpc;
                  host.TGrpc] nowait.init))).
Proof.
  apply (nowait_exit_status env_bind_fails
           (nowait.exec env_bind_fails
              [host.TMain; host.TGrpc; host.TGrpc; host.TGrpc; host.TGrpc;
               host.TGrpc] nowait.init) 1).
  - by eexists.
  - reflexivity.
Defined.

Lemma nowait_exec_cons env t sched st st' :
  nowait.step env t st = Some st' ->
  nowait.exec env (t :: sched) st = nowait.exec env sched st'.
Proof. intros H. unfold nowait.exec. cbn. by rewrite H. Qed.

(** X17. In the entry point without a wait group a single listener failure
    ends the process: from every reachable state in which the process is
    alive and a listener goroutine has just been spawned, if that
    listener's [Start] fails with [e] then the goroutine's five steps print
    [e] and exit with status 1, whatever the other goroutine and [main] are
    doing. *)
Theorem nowait_failure_is_fatal (env : Env) (st : nowait.State) (e : string) :
  nowait.reachable env st ->
  nowait.proc st = host.Running ->
  (nowait.grpc_pc st = nowait.AtPrintln -> grpc_fails env e ->
   nowait.proc
     (nowait.exec env [host.TGrpc; host.TGrpc; host.TGrpc; host.TGrpc; host.TGrpc] st)
   = host.Exited 1 /\
   e +:+ nl
     ∈ stdout (nowait.world
                 (nowait.exec env
                    [host.TGrpc; host.TGrpc; host.TGrpc; host.TGrpc; host.TGrpc] st))) /\
  (nowait.http_pc st = nowait.AtPrintln -> http_fails env e ->
   nowait.proc
     (nowait.exec env [host.THttp; host.THttp; host.THttp; host.THttp; host.THttp] st)
   = host.Exited 1 /\
   e +:+ nl
     ∈ stdout (nowait.world
                 (nowait.exec env
                    [host.THttp; host.THttp; host.THttp; host.THttp; host.THttp] st))).
Proof.
  intros Hreach Hrun.
  pose proof (nowait_reachable_inv env st Hreach) as (_ & _ & Hp).
  unfold nowait.proc_inv in Hp. rewrite Hrun in Hp. destruct Hp as (_ & _ & Hwh).
  destruct st as [w mpc gpc hpc p]. cbn in Hrun, Hwh. subst p.
  cbn [nowait.grpc_pc nowait.http_pc].
  split.
  - intros -> Hfail. apply grpc_fails_outcome in Hfail.
    erewrite nowait_exec_cons by reflexivity.
    destruct (NewGrpcServer_run ":8080"
                (set_stdout (fun out => out ++ ["Starting server..." +:+ nl]) w))
      as (s & w1 & Hnew & Hst & Haddr & _).
    erewrite nowait_exec_cons
      by (unfold nowait.step, nowait.task_step, nowait.exec_go;
          cbn -[NewGrpcServer Start NewHTTPServer HTTPServer_Start];
          rewrite Hnew; reflexivity).
    destruct (Start_run env w1 s ":8080" Hst Haddr) as (w2 & Hstart & _).
    erewrite nowait_exec_cons
      by (unfold nowait.step, nowait.task_step, nowait.exec_go;
          cbn -[NewGrpcServer Start NewHTTPServer HTTPServer_Start];
          rewrite Hstart, Hfail; reflexivity).
    erewrite nowait_exec_cons by reflexivity.
    erewrite nowait_exec_cons by reflexivity.
    cbn. split; [reflexivity|apply elem_of_snoc_r].
  - intros -> Hfail. apply http_fails_outcome in Hfail.
    erewrite nowait_exec_cons by reflexivity.
    destruct (NewHTTPServer_run ":8081"
                (set_stdout (fun out => out ++ ["Starting HTTP server..." +:+ nl]) w))
      as (s & w1 & Hnew & Haddr & _); [exact Hwh|].
    erewrite nowait_exec_cons
      by (unfold nowait.step, nowait.task_step, nowait.exec_go;
          cbn -[NewGrpcServer Start NewHTTPServer HTTPServer_Start];
          rewrite Hnew; reflexivity).
    destruct (HTTPServer_Start_run env w1 s ":8081" Haddr) as (w2 & Hstart & _).
    erewrite nowait_exec_cons
      by (unfold nowait.step, nowait.task_step, nowait.exec_go;
          cbn -[NewGrpcServer Start NewHTTPServer HTTPServer_Start];
          rewrite Hstart, Hfail; reflexivity).
    erewrite nowait_exec_cons by reflexivity.
    erewrite nowait_exec_cons by reflexivity.
    cbn. split; [reflexivity|apply elem_of_snoc_r].
Qed.

Lemma nowait_failure_is_fatal_witness :
  nowait.proc
    (nowait.exec env_bind_fails
       [host.TGrpc; host.TGrpc; host.TGrpc; host.TGrpc; host.TGrpc]
       (nowait.exec env_bind_fails [host.TMain; host.TMain] nowait.init))
  = host.Exited 1 /\
  addr_in_use +:+ nl
    ∈ stdout
        (nowait.world
           (nowait.exec env_bind_fails
              [host.TGrpc; host.TGrpc; host.TGrpc; host.TGrpc; host.TGrpc]
              (nowait.exec env_bind_fails [host.TMain; host.TMain] nowait.init))).
Proof.
  apply (nowait_failure_is_fatal env_bind_fails
           (nowait.exec env_bind_fails [host.TMain; host.TMain] nowait.init)
           addr_in_use).
  - by eexists.
  - reflexivity.
  - reflexivity.
  - left. reflexivity.
Defined.
